(** * EDUARDO-V2: the weekly trading pipeline and its scheduler

    A shallow embedding of [models.py], [alpaca_client.py], [main.py] and
    [scheduler.py].

    - Python exceptions are values of [exn]; a call that may raise returns a
      [result].
    - Code that talks to the outside world (Alpaca, the three language-model
      stages, the wall clock) runs in the monad [M]: it passes an abstract
      world [W] along and appends every remote call it makes to a trace, so
      that "stage X was never invoked" is a statement about the trace.
    - [logger] calls only format values of the declared types; they never
      alter control flow and are left out.
    - The [schedule] package is modelled by its job list: [do] appends a job,
      a job that returns [CancelJob] is removed after it ran. *)

From Stdlib Require Import String Ascii ZArith List Bool Lia.
Import ListNotations.
Open Scope string_scope.
Open Scope Z_scope.
Open Scope list_scope.

Set Implicit Arguments.

(* ================================================================= *)
(** ** Exceptions and results *)

(** The exception classes the code distinguishes. [except Exception]
    catches every one of them ([KeyboardInterrupt] and other
    [BaseException]s are outside the model). *)
Inductive exn_class :=
| RateLimitError
| ValueError
| TypeError
| OverflowError
| OtherError.

Record exn := Exc { exc_class : exn_class; exc_msg : string }.

(** [str(e)] *)
Definition str_exn (e : exn) : string := exc_msg e.

Definition exn_class_eqb (a b : exn_class) : bool :=
  match a, b with
  | RateLimitError, RateLimitError
  | ValueError, ValueError
  | TypeError, TypeError
  | OverflowError, OverflowError
  | OtherError, OtherError => true
  | _, _ => false
  end.

Inductive result (A : Type) :=
| Ok (a : A)
| Raise (e : exn).

Arguments Ok {A} a.
Arguments Raise {A} e.

(* ================================================================= *)
(** ** Python floats and the raw values handed to [float()] *)

(** Prices and balances are Python floats; nothing below depends on their
    arithmetic, so the type and the operations the code uses are an
    interface.  [raw] is whatever the Alpaca SDK puts in a numeric field
    (a string, [None], a number): [float_of] is [float(x)], which may
    raise, and [truthy] is the test [if x].  [float_of_int] is the
    conversion of an [int] to a float, which raises for an integer beyond
    the float range. *)
Class PyFloat := {
  float : Type;
  raw : Type;
  float_of : raw -> result float;
  truthy : raw -> bool;
  fzero : float;                       (* 0.0 *)
  fmul_int : float -> Z -> float;      (* filled_price * decision.shares *)
  float_of_int : Z -> result float     (* the float field of a request *)
}.

(* ================================================================= *)
(** ** The monad of remote calls *)

Section Monad.
Context {Call W : Type}.

(** The state threaded through the pipeline: the outside world and the
    remote calls made so far, oldest first. *)
Record pstate := { world : W; trace : list Call }.

Definition M (A : Type) : Type := pstate -> pstate * result A.

Definition ret {A} (a : A) : M A := fun s => (s, Ok a).

Definition raise {A} (e : exn) : M A := fun s => (s, Raise e).

Definition bind {A B} (m : M A) (k : A -> M B) : M B :=
  fun s =>
    match m s with
    | (s', Ok a) => k a s'
    | (s', Raise e) => (s', Raise e)
    end.

(** [try: body / except Exception as e: handler e].  The effects of the
    body up to the raise are kept. *)
Definition try_except {A} (body : M A) (handler : exn -> M A) : M A :=
  fun s =>
    match body s with
    | (s', Ok a) => (s', Ok a)
    | (s', Raise e) => handler e s'
    end.

(** [try: body / except cls as e: handler e]: other classes pass
    through. *)
Definition try_except_class {A} (cls : exn_class) (body : M A)
           (handler : exn -> M A) : M A :=
  fun s =>
    match body s with
    | (s', Ok a) => (s', Ok a)
    | (s', Raise e) =>
        if exn_class_eqb (exc_class e) cls then handler e s'
        else (s', Raise e)
    end.

(** A remote call: recorded in the trace, then answered by the world. *)
Definition call {A} (c : Call) (f : W -> W * result A) : M A :=
  fun s =>
    let (w', r) := f (world s) in
    ({| world := w'; trace := trace s ++ [c] |}, r).

(** A local computation that may raise. *)
Definition lift {A} (r : result A) : M A := fun s => (s, r).

(** A read of the world that is no remote call (the wall clock). *)
Definition observe {A} (f : W -> W * A) : M A :=
  fun s =>
    let (w', a) := f (world s) in
    ({| world := w'; trace := trace s |}, Ok a).
End Monad.

Arguments pstate : clear implicits.
Arguments M : clear implicits.

Declare Scope monad_scope.
Delimit Scope monad_scope with monad.
Notation "x <- m ;; k" := (bind m (fun x => k))
  (at level 61, m at next level, right associativity) : monad_scope.
Open Scope monad_scope.

(* ================================================================= *)
(** ** models.py *)

Record CompanyPick := {
  pick_company : string;
  pick_ticker : string;
  pick_rationale : string;
  pick_news_summary : string
}.

Record GPTResponse := {
  picks : list CompanyPick;
  gpt_timestamp : string
}.

Section Models.
Context {PF : PyFloat}.

Record FundamentalData := {
  fund_company : string;
  fund_ticker : string;
  pe_ratio : option float;
  cash_flow : option float;
  revenue : option float;
  market_cap : option float;
  debt_to_equity : option float;
  earnings_growth : option float;
  dividend_yield : option float;
  additional_metrics : list (string * raw);
  analysis_notes : string
}.

Record ClaudeResponse := {
  fundamentals : list FundamentalData;
  claude_timestamp : string
}.

Record InvestmentDecision := {
  company : string;
  ticker : string;
  action : string;                   (* "BUY", "SELL", "HOLD" *)
  shares : Z;
  rationale : string;
  confidence : float;
  risk_assessment : string
}.

Record GrokResponse := {
  decisions : list InvestmentDecision;
  portfolio_risk_analysis : string;
  grok_available_capital : float
}.

Record TradeResult := {
  tr_ticker : string;
  tr_shares : Z;
  tr_action : string;
  price : float;
  total_value : float;
  success : bool;
  order_id : option string;
  error_message : option string;
  tr_timestamp : string
}.
End Models.

(* ================================================================= *)
(** ** alpaca_client.py *)

(** What the Alpaca SDK hands back; numeric fields are [raw]. *)
Section AlpacaTypes.
Context {PF : PyFloat}.

Record TradingClient := {
  client_api_key : string;
  client_api_secret : string;
  paper : bool
}.

Record TradeAccount := {
  account_cash : raw;
  account_portfolio_value : raw;
  account_buying_power : raw
}.

Record Position := {
  pos_symbol : string;
  pos_qty : raw;
  pos_market_value : raw;
  pos_avg_entry_price : raw;
  pos_current_price : raw;
  pos_unrealized_pl : raw;
  pos_unrealized_plpc : raw
}.

Inductive OrderSide := BUY | SELL.
Inductive TimeInForce := DAY | GTC.

Record MarketOrderRequest := {
  req_symbol : string;
  req_qty : float;
  req_side : OrderSide;
  req_time_in_force : TimeInForce
}.

Record Order := {
  order_ident : string;              (* str(order.id) *)
  filled_avg_price : raw
}.

(** One entry of [positions_dict]. *)
Record PositionInfo := {
  qty : float;
  market_value : float;
  avg_entry_price : float;
  current_price : float;
  unrealized_pl : float;
  unrealized_plpc : float
}.

(** The dict [get_account_info] returns. *)
Record AccountInfo := {
  cash : float;
  portfolio_value : float;
  buying_power : float;
  positions : list (string * PositionInfo)
}.

(** The remote calls, as the trace records them. *)
Inductive Call :=
| CallGetClock
| CallGetAccount
| CallGetAllPositions
| CallResearch
| CallAnalyze
| CallDecide
| CallSubmitOrder (req : MarketOrderRequest).

(** The collaborators.  Each answers from the current world, may change
    it, and may raise.  The first four are the methods of the Alpaca
    [TradingClient]; [research_companies], [analyze_fundamentals] and
    [make_investment_decision] are the stage functions of
    [gpt_client.py], [claude_client.py] and [grok_client.py], each a
    remote completion followed by JSON parsing, taken as one call.
    [environ] is [os.environ]: nothing in the repository writes to it,
    so it is fixed for the life of the process. *)
Record Services (W : Type) := {
  environ : string -> option string;
  get_clock : TradingClient -> W -> W * result bool;
  get_account : TradingClient -> W -> W * result TradeAccount;
  get_all_positions : TradingClient -> W -> W * result (list Position);
  submit_order : TradingClient -> MarketOrderRequest -> W -> W * result Order;
  research_companies : W -> W * result GPTResponse;
  analyze_fundamentals : list CompanyPick -> W -> W * result ClaudeResponse;
  make_investment_decision :
    list CompanyPick -> list FundamentalData -> float ->
    list (string * PositionInfo) -> W -> W * result GrokResponse;
  now_isoformat : W -> W * string     (* datetime.now().isoformat() *)
}.
End AlpacaTypes.

(** [s.lower()] on the ASCII range. *)
Definition lower_ascii (c : ascii) : ascii :=
  let n := nat_of_ascii c in
  if (Nat.leb 65 n && Nat.leb n 90)%bool then ascii_of_nat (n + 32) else c.

Fixpoint lower (s : string) : string :=
  match s with
  | EmptyString => EmptyString
  | String c s' => String (lower_ascii c) (lower s')
  end.

(** [not x] for [x = os.environ.get(k)]: [None] and the empty string. *)
Definition falsy_str (x : option string) : bool :=
  match x with
  | None => true
  | Some s => String.eqb s ""
  end.

(** [d[k] = v] on a dict kept in insertion order. *)
Fixpoint dict_set {V : Type} (d : list (string * V)) (k : string) (v : V)
  : list (string * V) :=
  match d with
  | [] => [(k, v)]
  | (k', v') :: d' =>
      if String.eqb k' k then (k, v) :: d' else (k', v') :: dict_set d' k v
  end.

Section AlpacaClient.
Context {PF : PyFloat} {W : Type} (svc : Services W).

Local Abbreviation M := (M Call W).

Definition get_alpaca_client : M TradingClient :=
  let api_key := environ svc "ALPACA_API_KEY" in
  let api_secret := environ svc "ALPACA_API_SECRET" in
  if (falsy_str api_key || falsy_str api_secret)%bool then
    raise (Exc ValueError
      "ALPACA_API_KEY and ALPACA_API_SECRET environment variables must be set")
  else
    let paper :=
      negb (String.eqb
              (lower (match environ svc "ALPACA_LIVE" with
                      | Some v => v
                      | None => "false"
                      end))
              "true") in
    ret {| client_api_key := match api_key with Some k => k | None => "" end;
           client_api_secret := match api_secret with Some k => k | None => "" end;
           paper := paper |}.

Definition position_info (pos : Position) : result PositionInfo :=
  match float_of (pos_qty pos) with Raise e => Raise e | Ok q =>
  match float_of (pos_market_value pos) with Raise e => Raise e | Ok mv =>
  match float_of (pos_avg_entry_price pos) with Raise e => Raise e | Ok ae =>
  match float_of (pos_current_price pos) with Raise e => Raise e | Ok cp =>
  match float_of (pos_unrealized_pl pos) with Raise e => Raise e | Ok pl =>
  match float_of (pos_unrealized_plpc pos) with Raise e => Raise e | Ok plpc =>
    Ok {| qty := q; market_value := mv; avg_entry_price := ae;
          current_price := cp; unrealized_pl := pl;
          unrealized_plpc := plpc |}
  end end end end end end.

Fixpoint positions_loop (ps : list Position)
         (positions_dict : list (string * PositionInfo))
  : result (list (string * PositionInfo)) :=
  match ps with
  | [] => Ok positions_dict
  | pos :: ps' =>
      match position_info pos with
      | Raise e => Raise e
      | Ok info => positions_loop ps' (dict_set positions_dict (pos_symbol pos) info)
      end
  end.

Definition get_account_info : M AccountInfo :=
  client <- get_alpaca_client ;;
  account <- call CallGetAccount (get_account svc client) ;;
  positions <- call CallGetAllPositions (get_all_positions svc client) ;;
  positions_dict <- lift (positions_loop positions []) ;;
  c <- lift (float_of (account_cash account)) ;;
  pv <- lift (float_of (account_portfolio_value account)) ;;
  bp <- lift (float_of (account_buying_power account)) ;;
  ret {| cash := c; portfolio_value := pv; buying_power := bp;
         positions := positions_dict |}.

(** The guard at the head of the loop body:
    [decision.action != "BUY" or decision.shares <= 0]. *)
Definition skipped (decision : InvestmentDecision) : bool :=
  (negb (String.eqb (action decision) "BUY") || (shares decision <=? 0))%bool.

(** [MarketOrderRequest(symbol=decision.ticker, qty=decision.shares,
    side=OrderSide.BUY, time_in_force=TimeInForce.DAY)].  The request
    keeps its quantity as a float, so the constructor converts the share
    count and raises when it does not fit; a string symbol and the two
    enum members pass its validation. *)
Definition market_order (decision : InvestmentDecision)
  : result MarketOrderRequest :=
  match float_of_int (shares decision) with
  | Ok q =>
      Ok {| req_symbol := ticker decision;
            req_qty := q;
            req_side := BUY;
            req_time_in_force := DAY |}
  | Raise e => Raise e
  end.

(** The [TradeResult] of the [try] branch. *)
Definition filled_result (decision : InvestmentDecision) (order : Order)
           (filled_price : float) (ts : string) : TradeResult :=
  {| tr_ticker := ticker decision;
     tr_shares := shares decision;
     tr_action := "BUY";
     price := filled_price;
     total_value := fmul_int filled_price (shares decision);
     success := true;
     order_id := Some (order_ident order);
     error_message := None;
     tr_timestamp := ts |}.

(** The [TradeResult] of the [except] branch. *)
Definition failed_result (decision : InvestmentDecision) (e : exn)
           (ts : string) : TradeResult :=
  {| tr_ticker := ticker decision;
     tr_shares := shares decision;
     tr_action := "BUY";
     price := fzero;
     total_value := fzero;
     success := false;
     order_id := None;
     error_message := Some (str_exn e);
     tr_timestamp := ts |}.

(** The body of the [try] for one decision; it ends by appending to
    [results]. *)
Definition place_order (client : TradingClient)
           (decision : InvestmentDecision) (results : list TradeResult)
  : M (list TradeResult) :=
  order_data <- lift (market_order decision) ;;
  order <- call (CallSubmitOrder order_data) (submit_order svc client order_data) ;;
  filled_price <-
    (if truthy (filled_avg_price order)
     then lift (float_of (filled_avg_price order))
     else ret fzero) ;;
  ts <- observe (now_isoformat svc) ;;
  ret (results ++ [filled_result decision order filled_price ts]).

(** The [except Exception as e] branch. *)
Definition record_failure (decision : InvestmentDecision)
           (results : list TradeResult) (e : exn) : M (list TradeResult) :=
  ts <- observe (now_isoformat svc) ;;
  ret (results ++ [failed_result decision e ts]).

(** [for decision in decisions: ...] with [results] as accumulator. *)
Fixpoint execute_trades_loop (client : TradingClient)
         (decisions : list InvestmentDecision) (results : list TradeResult)
  : M (list TradeResult) :=
  match decisions with
  | [] => ret results
  | decision :: rest =>
      if skipped decision then execute_trades_loop client rest results
      else
        results' <- try_except (place_order client decision results)
                               (record_failure decision results) ;;
        execute_trades_loop client rest results'
  end.

Definition execute_trades (decisions : list InvestmentDecision)
  : M (list TradeResult) :=
  client <- get_alpaca_client ;;
  execute_trades_loop client decisions [].

Definition check_market_open : M bool :=
  client <- get_alpaca_client ;;
  call CallGetClock (get_clock svc client).
End AlpacaClient.

(* ================================================================= *)
(** ** main.py *)

Section Main.
Context {PF : PyFloat} {W : Type} (svc : Services W).

Local Abbreviation M := (M Call W).

(** The "Check results" loop and the empty-list override that follows
    it: the value of [all_successful] at the [return]. *)
Definition check_results (trade_results : list TradeResult) : bool :=
  let all_successful :=
    fold_left (fun all_successful result =>
                 if success result then all_successful else false)
              trade_results true in
  match trade_results with
  | [] => true
  | _ => all_successful
  end.

(** The body of the outer [try].  The two early [return False] are the
    [ret false] branches. *)
Definition pipeline_body : M bool :=
  is_open <- check_market_open svc ;;
  if negb is_open then ret false
  else
    account_info <- get_account_info svc ;;
    let available_capital := cash account_info in
    let current_positions := positions account_info in
    researched <-
      try_except_class RateLimitError
        (gpt_response <- call CallResearch (research_companies svc) ;;
         ret (Some gpt_response))
        (fun _ => ret None) ;;
    match researched with
    | None => ret false
    | Some gpt_response =>
        claude_response <-
          call CallAnalyze (analyze_fundamentals svc (picks gpt_response)) ;;
        grok_response <-
          call CallDecide
               (make_investment_decision svc (picks gpt_response)
                  (fundamentals claude_response)
                  available_capital current_positions) ;;
        trade_results <- execute_trades svc (decisions grok_response) ;;
        ret (check_results trade_results)
    end.

Definition run_trading_pipeline : M bool :=
  try_except pipeline_body (fun _ => ret false).
End Main.

(* ================================================================= *)
(** ** scheduler.py *)

(** *** The [schedule] package, as far as the scheduler uses it *)

Inductive JobFunc := RunTask | RetryOnce.
Inductive JobUnit := EveryMonday | EveryDay.

Record Job := {
  job_unit : JobUnit;
  at_time : string;
  job_func : JobFunc;
  tags : list string
}.

(** [schedule.every().monday.at("08:30").do(self.run_task)] *)
Definition weekly_job : Job :=
  {| job_unit := EveryMonday; at_time := "08:30"; job_func := RunTask; tags := [] |}.

(** [schedule.every().day.at("08:30").do(self._retry_once).tag('retry')] *)
Definition retry_job : Job :=
  {| job_unit := EveryDay; at_time := "08:30"; job_func := RetryOnce;
     tags := ["retry"] |}.

Definition is_retry (j : Job) : bool :=
  match job_func j with RetryOnce => true | RunTask => false end.

(** [jobs.remove(job)] for the job at position [i]. *)
Fixpoint remove_nth {A : Type} (i : nat) (l : list A) : list A :=
  match l, i with
  | [], _ => []
  | _ :: l', O => l'
  | x :: l', S i' => x :: remove_nth i' l'
  end.

Section Scheduler.
(** [task_func] is any callable returning a bool; [St] is whatever it
    reads and changes. *)
Context {St : Type} (task_func : St -> St * result bool).

(** The scheduler object together with the process-wide job list of
    [schedule].  [task_calls] is a ghost counter of the calls of
    [task_func]. *)
Record EduardoScheduler := {
  retry_scheduled : bool;
  jobs : list Job;
  task_state : St;
  task_calls : nat
}.

(** [EduardoScheduler(task_func)] in a fresh process. *)
Definition init (s : St) : EduardoScheduler :=
  {| retry_scheduled := false; jobs := []; task_state := s; task_calls := O |}.

Definition set_retry_scheduled (b : bool) (self : EduardoScheduler) :=
  {| retry_scheduled := b; jobs := jobs self;
     task_state := task_state self; task_calls := task_calls self |}.

Definition add_job (j : Job) (self : EduardoScheduler) :=
  {| retry_scheduled := retry_scheduled self; jobs := jobs self ++ [j];
     task_state := task_state self; task_calls := task_calls self |}.

Definition cancel_job (i : nat) (self : EduardoScheduler) :=
  {| retry_scheduled := retry_scheduled self; jobs := remove_nth i (jobs self);
     task_state := task_state self; task_calls := task_calls self |}.

(** [self.task_func()] *)
Definition call_task (self : EduardoScheduler) : EduardoScheduler * result bool :=
  let (s', r) := task_func (task_state self) in
  ({| retry_scheduled := retry_scheduled self; jobs := jobs self;
      task_state := s'; task_calls := S (task_calls self) |}, r).

Definition _schedule_retry (self : EduardoScheduler) : EduardoScheduler :=
  if negb (retry_scheduled self)
  then add_job retry_job (set_retry_scheduled true self)
  else self.

Definition run_task (self : EduardoScheduler) : EduardoScheduler :=
  let (self', r) := call_task self in
  match r with
  | Ok true => set_retry_scheduled false self'
  | Ok false => _schedule_retry self'
  | Raise _ => _schedule_retry self'
  end.

(** Always returns [schedule.CancelJob]; the caller removes the job. *)
Definition _retry_once (self : EduardoScheduler) : EduardoScheduler :=
  let self0 := set_retry_scheduled false self in
  let (self', _) := call_task self0 in
  self'.

Definition run_now (self : EduardoScheduler) : EduardoScheduler :=
  run_task self.

(** The registration at the head of [start]. *)
Definition start_register (self : EduardoScheduler) : EduardoScheduler :=
  add_job weekly_job self.

(** [schedule.run_pending] running the job at position [i]: a job whose
    function returns [CancelJob] is removed from the list afterwards.
    Jobs appended meanwhile sit behind it, so the position is still
    right. *)
Definition run_job (i : nat) (self : EduardoScheduler) : EduardoScheduler :=
  match nth_error (jobs self) i with
  | None => self
  | Some j =>
      match job_func j with
      | RunTask => run_task self
      | RetryOnce => cancel_job i (_retry_once self)
      end
  end.

(** What can happen to a running scheduler: a registered job comes due
    (the loop of [start]), or somebody calls [run_now]. *)
Inductive event :=
| JobDue (i : nat)
| ManualRun.

Definition step (self : EduardoScheduler) (e : event) : EduardoScheduler :=
  match e with
  | JobDue i => run_job i self
  | ManualRun => run_now self
  end.

Definition run_events (es : list event) (self : EduardoScheduler)
  : EduardoScheduler :=
  fold_left step es self.

(** The retry timers armed right now. *)
Definition pending_retries (self : EduardoScheduler) : nat :=
  length (filter is_retry (jobs self)).
End Scheduler.

Arguments EduardoScheduler : clear implicits.

(** *** [calculate_next_monday_830_cdt] *)

(** An aware datetime in the zone [CDT].  The date is kept as its
    proleptic Gregorian ordinal ([date.toordinal()], day 1 is Monday
    0001-01-01); every value here carries the same [tzinfo], so Python
    compares and shifts them by their wall-clock fields. *)
Record datetime := {
  toordinal : Z;
  hour : Z;
  minute : Z;
  second : Z;
  microsecond : Z
}.

(** [datetime.max.toordinal()] *)
Definition MAXORDINAL : Z := 3652059.

Definition weekday (d : datetime) : Z := (toordinal d + 6) mod 7.

(** [d + timedelta(days=n)] *)
Definition add_days (d : datetime) (n : Z) : result datetime :=
  let o := toordinal d + n in
  if ((o <? 1) || (MAXORDINAL <? o))%bool
  then Raise (Exc OverflowError "date value out of range")
  else Ok {| toordinal := o; hour := hour d; minute := minute d;
             second := second d; microsecond := microsecond d |}.

(** [d.replace(hour=h, minute=m, second=s, microsecond=us)] *)
Definition replace_time (d : datetime) (h m s us : Z) : datetime :=
  {| toordinal := toordinal d; hour := h; minute := m; second := s;
     microsecond := us |}.

(** [now] is the value of [datetime.now(CDT)]. *)
Definition calculate_next_monday_830_cdt (now : datetime) : result datetime :=
  let days_until_monday := (7 - weekday now) mod 7 in
  let days_until_monday :=
    if ((days_until_monday =? 0) && (hour now >=? 9))%bool then 7
    else days_until_monday in
  match add_days now days_until_monday with
  | Raise e => Raise e
  | Ok next_monday => Ok (replace_time next_monday 8 30 0 0)
  end.

(** The fields in comparison order. *)
Definition dt_key (d : datetime) : list Z :=
  [toordinal d; hour d; minute d; second d; microsecond d].

Fixpoint lex_ltb (a b : list Z) : bool :=
  match a, b with
  | x :: a', y :: b' => (x <? y) || ((x =? y) && lex_ltb a' b')
  | [], _ :: _ => true
  | _, [] => false
  end.

(** [a < b] on datetimes *)
Definition dt_ltb (a b : datetime) : bool := lex_ltb (dt_key a) (dt_key b).

(** A value [datetime.now] can return. *)
Definition valid_datetime (d : datetime) : Prop :=
  1 <= toordinal d <= MAXORDINAL /\
  0 <= hour d < 24 /\ 0 <= minute d < 60 /\
  0 <= second d < 60 /\ 0 <= microsecond d < 1000000.

(* ================================================================= *)
(** ** Vocabulary of the statements *)

(** The outcomes of the task that [run_task] counts as a failed run. *)
Definition failed (r : result bool) : bool :=
  match r with
  | Ok true => false
  | Ok false | Raise _ => true
  end.

Section Vocabulary.
Context {PF : PyFloat}.

(** A decision the statements call a buy order: action "BUY" and a
    positive number of shares. *)
Definition is_buy_order (d : InvestmentDecision) : bool :=
  (String.eqb (action d) "BUY" && (0 <? shares d))%bool.

(** The remote calls of the stages that follow research. *)
Definition later_stage (c : Call) : bool :=
  match c with
  | CallAnalyze | CallDecide | CallSubmitOrder _ => true
  | _ => false
  end.

(** K: the results that report a failure. *)
Definition failures (results : list TradeResult) : nat :=
  length (filter (fun r => negb (success r)) results).

(** [r] is the result recorded for decision [d]: same ticker and
    share count, action "BUY", and a failure carries its reason. *)
Definition result_for (d : InvestmentDecision) (r : TradeResult) : Prop :=
  tr_ticker r = ticker d /\ tr_shares r = shares d /\
  tr_action r = "BUY" /\
  (success r = false -> exists msg, error_message r = Some msg).

(** The order one decision leaves in the trace when the loop attempts
    it: none when its request cannot be built. *)
Definition order_call (d : InvestmentDecision) : list Call :=
  match market_order d with
  | Ok req => [CallSubmitOrder req]
  | Raise _ => []
  end.

(** The orders a list of decisions leaves in the trace. *)
Definition orders_of (ds : list InvestmentDecision) : list Call :=
  flat_map order_call (filter is_buy_order ds).

(** Both Alpaca credentials are present in [os.environ]. *)
Definition credentials_set {W} (svc : Services W) : bool :=
  (negb (falsy_str (environ svc "ALPACA_API_KEY")) &&
   negb (falsy_str (environ svc "ALPACA_API_SECRET")))%bool.
End Vocabulary.

(* ================================================================= *)
(** ** Test doubles *)

Module Demo.

(** Prices in whole cents stand in for floats; a missing value is
    [None]. *)
#[export] Instance CentsFloat : PyFloat := {|
  float := Z;
  raw := option Z;
  float_of := fun r =>
    match r with
    | Some z => Ok z
    | None => Raise (Exc TypeError "float() argument must be a string or a real number")
    end;
  truthy := fun r => match r with Some z => negb (z =? 0) | None => false end;
  fzero := 0;
  fmul_int := Z.mul;
  float_of_int := fun n =>
    if Z.log2 (Z.abs n) <? 1024 then Ok n
    else Raise (Exc OverflowError "int too large to convert to float")
|}.

Record scenario := {
  sc_is_open : result bool;
  sc_research : result GPTResponse;
  sc_decisions : list InvestmentDecision;
  sc_rejected : list string          (* tickers the broker refuses *)
}.

Definition mem_str (x : string) (l : list string) : bool :=
  existsb (String.eqb x) l.

(** The world counts the orders the broker accepted. *)
Definition services (sc : scenario) : Services nat := {|
  environ := fun k =>
    if String.eqb k "ALPACA_API_KEY" then Some "key"
    else if String.eqb k "ALPACA_API_SECRET" then Some "secret"
    else None;
  get_clock := fun _ w => (w, sc_is_open sc);
  get_account := fun _ w =>
    (w, Ok {| account_cash := Some 1000000;
              account_portfolio_value := Some 1000000;
              account_buying_power := Some 2000000 |});
  get_all_positions := fun _ w => (w, Ok []);
  submit_order := fun _ req w =>
    if mem_str (req_symbol req) (sc_rejected sc)
    then (w, Raise (Exc OtherError "insufficient buying power"))
    else (S w, Ok {| order_ident := req_symbol req;
                     filled_avg_price := Some 15000 |});
  research_companies := fun w => (w, sc_research sc);
  analyze_fundamentals := fun _ w =>
    (w, Ok {| fundamentals := []; claude_timestamp := "t" |});
  make_investment_decision := fun _ _ capital _ w =>
    (w, Ok {| decisions := sc_decisions sc;
              portfolio_risk_analysis := "";
              grok_available_capital := capital |});
  now_isoformat := fun w => (w, "t")
|}.

Definition decision (tkr act : string) (n : Z) : InvestmentDecision :=
  {| company := tkr; ticker := tkr; action := act; shares := n;
     rationale := ""; confidence := 1; risk_assessment := "" |}.

Definition five_picks : GPTResponse :=
  {| picks := map (fun t => {| pick_company := t; pick_ticker := t;
                               pick_rationale := ""; pick_news_summary := "" |})
                  ["AAA"; "BBB"; "CCC"; "DDD"; "EEE"];
     gpt_timestamp := "t" |}.

Definition start_state : pstate Call nat := {| world := O; trace := [] |}.

Definition market_closed : scenario :=
  {| sc_is_open := Ok false; sc_research := Ok five_picks;
     sc_decisions := [decision "AAA" "BUY" 10]; sc_rejected := [] |}.

Definition research_out_of_quota : scenario :=
  {| sc_is_open := Ok true;
     sc_research := Raise (Exc RateLimitError "insufficient_quota");
     sc_decisions := [decision "AAA" "BUY" 10]; sc_rejected := [] |}.

Definition nothing_to_do : scenario :=
  {| sc_is_open := Ok true; sc_research := Ok five_picks;
     sc_decisions := []; sc_rejected := [] |}.

Definition mixed_decisions : list InvestmentDecision :=
  [decision "AAA" "BUY" 10; decision "BBB" "SELL" 5;
   decision "CCC" "BUY" 3; decision "DDD" "HOLD" 0;
   decision "EEE" "BUY" 0].

Definition one_rejected : scenario :=
  {| sc_is_open := Ok true; sc_research := Ok five_picks;
     sc_decisions := mixed_decisions; sc_rejected := ["AAA"] |}.

(** A task that plays back a script of outcomes, one per call; an
    exhausted script succeeds. *)
Definition scripted_task (script : list (result bool))
  : list (result bool) * result bool :=
  match script with
  | [] => ([], Ok true)
  | r :: script' => (script', r)
  end.

(** Ordinal 739012 is Monday 2024-05-06. *)
Definition monday_0830 : datetime :=
  {| toordinal := 739012; hour := 8; minute := 30; second := 0;
     microsecond := 0 |}.

Definition monday_0845 : datetime :=
  {| toordinal := 739012; hour := 8; minute := 45; second := 12;
     microsecond := 250000 |}.
End Demo.

(* ================================================================= *)
(** ** api_keys.py *)

(** [d.get(k)] on a dict kept in insertion order. *)
Fixpoint dict_get {V : Type} (d : list (string * V)) (k : string) : option V :=
  match d with
  | [] => None
  | (k', v) :: d' => if String.eqb k' k then Some v else dict_get d' k
  end.

(** The module-level table. *)
Definition API_KEYS : list (string * list (string * string)) :=
  [("ALPACA", [("API_KEY", "your_alpaca_api_key");
               ("API_SECRET", "your_alpaca_secret_key");
               ("BASE_URL", "https://paper-api.alpaca.markets")]);
   ("POLYGON", [("API_KEY", "your_polygon_api_key")]);
   ("OPENAI", [("API_KEY", "your_openai_api_key")]);
   ("TRADIER", [("API_KEY", "your_tradier_api_key");
                ("ACCOUNT_ID", "your_tradier_account_id")])].

(** What [get_key] gives: the stored string, or a [KeyError] with its
    message. *)
Inductive key_lookup :=
| KeyFound (v : string)
| KeyError (msg : string).

(** [get_key(service, key_name)]; [keys] is the value of the global
    [API_KEYS] at the call. *)
Definition get_key (keys : list (string * list (string * string)))
           (service key_name : string) : key_lookup :=
  match dict_get keys service with
  | None =>
      KeyError ("Service '" ++ service ++ "' not found in API_KEYS")%string
  | Some entries =>
      match dict_get entries key_name with
      | None =>
          KeyError ("Key '" ++ key_name ++ "' not found for service '"
                    ++ service ++ "'")%string
      | Some v => KeyFound v
      end
  end.

(** [get_key(service)]: [key_name] defaults to "API_KEY". *)
Definition get_key_default (keys : list (string * list (string * string)))
           (service : string) : key_lookup :=
  get_key keys service "API_KEY".

(* ================================================================= *)
(** ** grok_client.py: the input assembled for the decision stage *)

Section GrokInput.
Context {PF : PyFloat}.

(** The dict stored under "fundamentals". *)
Record FundamentalsEntry := {
  fe_pe_ratio : option float;
  fe_cash_flow : option float;
  fe_revenue : option float;
  fe_market_cap : option float;
  fe_debt_to_equity : option float;
  fe_earnings_growth : option float;
  fe_dividend_yield : option float;
  fe_additional_metrics : list (string * raw);
  fe_analysis_notes : string
}.

(** One [company_data] dict; the key "fundamentals" may be absent. *)
Record CompanyData := {
  cd_company : string;
  cd_ticker : string;
  cd_news_rationale : string;
  cd_news_summary : string;
  cd_fundamentals : option FundamentalsEntry
}.

Record InputData := {
  in_companies : list CompanyData;
  in_available_capital : float;
  in_current_positions : list (string * PositionInfo)
}.

(** [{f.ticker: f for f in fundamentals}] *)
Definition fund_map_of (fundamentals : list FundamentalData)
  : list (string * FundamentalData) :=
  fold_left (fun fund_map f => dict_set fund_map (fund_ticker f) f)
            fundamentals [].

Definition fundamentals_entry (f : FundamentalData) : FundamentalsEntry :=
  {| fe_pe_ratio := pe_ratio f;
     fe_cash_flow := cash_flow f;
     fe_revenue := revenue f;
     fe_market_cap := market_cap f;
     fe_debt_to_equity := debt_to_equity f;
     fe_earnings_growth := earnings_growth f;
     fe_dividend_yield := dividend_yield f;
     fe_additional_metrics := additional_metrics f;
     fe_analysis_notes := analysis_notes f |}.

(** The body of [for pick in picks], up to the [append]. *)
Definition company_data (fund_map : list (string * FundamentalData))
           (pick : CompanyPick) : CompanyData :=
  {| cd_company := pick_company pick;
     cd_ticker := pick_ticker pick;
     cd_news_rationale := pick_rationale pick;
     cd_news_summary := pick_news_summary pick;
     cd_fundamentals :=
       match dict_get fund_map (pick_ticker pick) with
       | Some f => Some (fundamentals_entry f)
       | None => None
       end |}.

Fixpoint merge_loop (fund_map : list (string * FundamentalData))
         (picks : list CompanyPick) (companies : list CompanyData)
  : list CompanyData :=
  match picks with
  | [] => companies
  | pick :: rest =>
      merge_loop fund_map rest (companies ++ [company_data fund_map pick])
  end.

(** [input_data] as it stands when the prompt is formatted. *)
Definition build_input_data (picks : list CompanyPick)
           (fundamentals : list FundamentalData) (available_capital : float)
           (current_positions : list (string * PositionInfo)) : InputData :=
  let fund_map := fund_map_of fundamentals in
  {| in_companies := merge_loop fund_map picks [];
     in_available_capital := available_capital;
     in_current_positions := current_positions |}.
End GrokInput.

(* ================================================================= *)
(** ** claude_client.py, grok_client.py: the reply before [json.loads] *)

(** A Python [str] is a sequence of characters; the code below only
    compares characters and asks whether one is white space, so the
    character type, its equality test and [str.isspace] are left open. *)
Section ReplyText.
Context {char : Type} (char_eqb : char -> char -> bool)
        (isspace : char -> bool).

(** [s.startswith(prefix)] *)
Fixpoint startswith (s prefix : list char) : bool :=
  match prefix, s with
  | [], _ => true
  | p :: prefix', c :: s' => (char_eqb c p && startswith s' prefix')%bool
  | _ :: _, [] => false
  end.

(** [s.partition(sep)] when [sep] occurs: the text before the leftmost
    occurrence and the text after it. *)
Fixpoint str_partition (s sep : list char) : option (list char * list char) :=
  if startswith s sep then Some ([], skipn (length sep) s)
  else
    match s with
    | [] => None
    | c :: s' =>
        match str_partition s' sep with
        | Some (before, after) => Some (c :: before, after)
        | None => None
        end
    end.

(** [sep in s] *)
Definition contains (sep s : list char) : bool :=
  match str_partition s sep with
  | Some _ => true
  | None => false
  end.

(** [s.split(sep)[0]] *)
Definition split_item0 (s sep : list char) : list char :=
  match str_partition s sep with
  | Some (before, _) => before
  | None => s
  end.

(** [s.split(sep)[1]]; [None] is the [IndexError] of a one-element
    list. *)
Definition split_item1 (s sep : list char) : option (list char) :=
  match str_partition s sep with
  | Some (_, after) => Some (split_item0 after sep)
  | None => None
  end.

Fixpoint lstrip (s : list char) : list char :=
  match s with
  | [] => []
  | c :: s' => if isspace c then lstrip s' else s
  end.

Definition rstrip (s : list char) : list char := rev (lstrip (rev s)).

(** [s.strip()] *)
Definition strip (s : list char) : list char := rstrip (lstrip s).

(** The argument of [json.loads] (claude_client.py lines 91-97,
    grok_client.py lines 157-163): [fence] is the three backticks, [tag]
    the word json.  [None] is an [IndexError] out of a [split(...)[1]]. *)
Definition json_text (fence tag content : list char) : option (list char) :=
  if contains (fence ++ tag) content then
    match split_item1 content (fence ++ tag) with
    | Some inner => Some (strip (split_item0 inner fence))
    | None => None
    end
  else if contains fence content then
    match split_item1 content fence with
    | Some inner => Some (strip (split_item0 inner fence))
    | None => None
    end
  else Some (strip content).
End ReplyText.

(* ================================================================= *)
(** ** main.py: [main] *)

(** The parsed command line. *)
Record Namespace := {
  args_run_now : bool;                 (* --run-now *)
  args_dry_run : bool                  (* --dry-run *)
}.

Section MainEntry.
Context {PF : PyFloat} {W : Type} (svc : Services W).

(** [scheduler.start()] never returns; [start es] is the scheduler after
    its loop has served the events [es]. *)
Definition start (es : list event) (self : EduardoScheduler (pstate Call W))
  : EduardoScheduler (pstate Call W) :=
  run_events (run_trading_pipeline svc) es (start_register self).

(** [main()] after [parse_args]: the scheduler it leaves behind, started
    in the process state [s]; [es] is what the loop of [start] gets to
    serve. *)
Definition main (args : Namespace) (es : list event) (s : pstate Call W)
  : EduardoScheduler (pstate Call W) :=
  let scheduler := init s in
  if args_run_now args
  then run_now (run_trading_pipeline svc) scheduler
  else start es scheduler.
End MainEntry.

(** The remote calls of one complete run, in the order the pipeline makes
    them, before any order. *)
Definition stage_sequence {PF : PyFloat} : list Call :=
  [CallGetClock; CallGetAccount; CallGetAllPositions;
   CallResearch; CallAnalyze; CallDecide].

Definition is_order {PF : PyFloat} (c : Call) : bool :=
  match c with
  | CallSubmitOrder _ => true
  | _ => false
  end.

(** A job that is no retry; the scheduler registers only the weekly
    one. *)
Definition is_weekly (j : Job) : bool := negb (is_retry j).

(** How a run of the pipeline ends, by the first step that does not
    answer: the state the run leaves and the bool it returns.  The clock
    step also ends the run when it reports a closed market; only a run
    in which every step answered can return anything but False. *)
Section RunEnds.
Context {PF : PyFloat} {W : Type} (svc : Services W).

Inductive run_ends (s : pstate Call W) : pstate Call W -> bool -> Prop :=
| ends_at_clock s1 r :
    check_market_open svc s = (s1, r) ->
    r <> Ok true ->
    run_ends s s1 false
| ends_at_account s1 s2 e :
    check_market_open svc s = (s1, Ok true) ->
    get_account_info svc s1 = (s2, Raise e) ->
    run_ends s s2 false
| ends_at_research s1 s2 acct w3 e :
    check_market_open svc s = (s1, Ok true) ->
    get_account_info svc s1 = (s2, Ok acct) ->
    research_companies svc (world s2) = (w3, Raise e) ->
    run_ends s {| world := w3; trace := trace s2 ++ [CallResearch] |} false
| ends_at_analysis s1 s2 acct w3 gpt w4 e :
    check_market_open svc s = (s1, Ok true) ->
    get_account_info svc s1 = (s2, Ok acct) ->
    research_companies svc (world s2) = (w3, Ok gpt) ->
    analyze_fundamentals svc (picks gpt) w3 = (w4, Raise e) ->
    run_ends s {| world := w4;
                  trace := trace s2 ++ [CallResearch; CallAnalyze] |} false
| ends_at_decision s1 s2 acct w3 gpt w4 claude w5 e :
    check_market_open svc s = (s1, Ok true) ->
    get_account_info svc s1 = (s2, Ok acct) ->
    research_companies svc (world s2) = (w3, Ok gpt) ->
    analyze_fundamentals svc (picks gpt) w3 = (w4, Ok claude) ->
    make_investment_decision svc (picks gpt) (fundamentals claude)
                             (cash acct) (positions acct) w4 = (w5, Raise e) ->
    run_ends s {| world := w5;
                  trace := trace s2 ++ [CallResearch; CallAnalyze; CallDecide] |}
             false
| ends_after_execution s1 s2 acct w3 gpt w4 claude w5 grok s6 results :
    check_market_open svc s = (s1, Ok true) ->
    get_account_info svc s1 = (s2, Ok acct) ->
    research_companies svc (world s2) = (w3, Ok gpt) ->
    analyze_fundamentals svc (picks gpt) w3 = (w4, Ok claude) ->
    make_investment_decision svc (picks gpt) (fundamentals claude)
                             (cash acct) (positions acct) w4 = (w5, Ok grok) ->
    execute_trades svc (decisions grok)
      {| world := w5;
         trace := trace s2 ++ [CallResearch; CallAnalyze; CallDecide] |}
      = (s6, Ok results) ->
    run_ends s s6 (forallb success results).
End RunEnds.

(** The discipline under which the retry flag and the job list stay in
    step: no run of [run_task] succeeds while [retry_scheduled] is set. *)
Section Discipline.
Context {St : Type} (task_func : St -> St * result bool).

(** The retry flag and the job list are in step: one retry job while the
    flag is set, none while it is clear. *)
Definition in_step (self : EduardoScheduler St) : Prop :=
  pending_retries self = if retry_scheduled self then 1%nat else 0%nat.

(** Does the event lead to [run_task]? *)
Definition runs_task (self : EduardoScheduler St) (e : event) : bool :=
  match e with
  | ManualRun => true
  | JobDue i =>
      match nth_error (jobs self) i with
      | Some j => negb (is_retry j)
      | None => false
      end
  end.

Fixpoint no_success_while_flagged (es : list event)
         (self : EduardoScheduler St) : Prop :=
  match es with
  | [] => True
  | e :: es' =>
      (runs_task self e = true -> retry_scheduled self = true ->
       failed (snd (task_func (task_state self))) = true) /\
      no_success_while_flagged es' (step task_func self e)
  end.
End Discipline.

(* ================================================================= *)
(** ** More test doubles *)

Module Fixtures.
Import Demo.

(** The services of [Demo] with the Alpaca credentials missing. *)
Definition without_credentials (sc : scenario) : Services nat :=
  let svc := services sc in
  {| environ := fun _ => None;
     get_clock := get_clock svc;
     get_account := get_account svc;
     get_all_positions := get_all_positions svc;
     submit_order := submit_order svc;
     research_companies := research_companies svc;
     analyze_fundamentals := analyze_fundamentals svc;
     make_investment_decision := make_investment_decision svc;
     now_isoformat := now_isoformat svc |}.

(** The broker accepts every order; [price] is what it reports as the
    fill price. *)
Definition with_fill_price (sc : scenario) (price : option Z) : Services nat :=
  let svc := services sc in
  {| environ := environ svc;
     get_clock := get_clock svc;
     get_account := get_account svc;
     get_all_positions := get_all_positions svc;
     submit_order := fun _ req w =>
       (S w, Ok {| order_ident := req_symbol req; filled_avg_price := price |});
     research_companies := research_companies svc;
     analyze_fundamentals := analyze_fundamentals svc;
     make_investment_decision := make_investment_decision svc;
     now_isoformat := now_isoformat svc |}.

(** The stages answer with [analysis] and [decision]. *)
Definition with_stages (sc : scenario)
           (analysis : result ClaudeResponse) (decision : result GrokResponse)
  : Services nat :=
  let svc := services sc in
  {| environ := environ svc;
     get_clock := get_clock svc;
     get_account := get_account svc;
     get_all_positions := fun _ w =>
       (w, Ok [ {| pos_symbol := "AAA"; pos_qty := Some 1;
                   pos_market_value := Some 100; pos_avg_entry_price := Some 90;
                   pos_current_price := Some 100; pos_unrealized_pl := Some 10;
                   pos_unrealized_plpc := Some 11 |} ]);
     submit_order := submit_order svc;
     research_companies := research_companies svc;
     analyze_fundamentals := fun _ w => (w, analysis);
     make_investment_decision := fun _ _ _ _ w => (w, decision);
     now_isoformat := now_isoformat svc |}.

Definition position (sym : string) (q : option Z) : Position :=
  {| pos_symbol := sym; pos_qty := q;
     pos_market_value := Some 100; pos_avg_entry_price := Some 90;
     pos_current_price := Some 100; pos_unrealized_pl := Some 10;
     pos_unrealized_plpc := Some 11 |}.

(** The broker reports the positions [ps]. *)
Definition with_positions (sc : scenario) (ps : list Position) : Services nat :=
  let svc := services sc in
  {| environ := environ svc;
     get_clock := get_clock svc;
     get_account := get_account svc;
     get_all_positions := fun _ w => (w, Ok ps);
     submit_order := submit_order svc;
     research_companies := research_companies svc;
     analyze_fundamentals := analyze_fundamentals svc;
     make_investment_decision := make_investment_decision svc;
     now_isoformat := now_isoformat svc |}.

Definition client : TradingClient :=
  {| client_api_key := "key"; client_api_secret := "secret"; paper := true |}.

Definition account : TradeAccount :=
  {| account_cash := Some 1000000; account_portfolio_value := Some 1000000;
     account_buying_power := Some 2000000 |}.

Definition fundamental (tkr : string) (pe : Z) : FundamentalData :=
  {| fund_company := tkr; fund_ticker := tkr; pe_ratio := Some pe;
     cash_flow := None; revenue := None; market_cap := None;
     debt_to_equity := None; earnings_growth := None;
     dividend_yield := None; additional_metrics := [];
     analysis_notes := "" |}.

Definition bare_company (tkr : string) : CompanyData :=
  {| cd_company := tkr; cd_ticker := tkr; cd_news_rationale := "";
     cd_news_summary := ""; cd_fundamentals := None |}.

Definition order (ident : string) (fill_price : option Z) : Order :=
  {| order_ident := ident; filled_avg_price := fill_price |}.

Definition request (tkr : string) (n : Z) : MarketOrderRequest :=
  {| req_symbol := tkr; req_qty := n; req_side := BUY;
     req_time_in_force := DAY |}.

Definition chars (s : string) : list ascii := list_ascii_of_string s.

(** White space among the first 128 characters. *)
Definition ascii_isspace (c : ascii) : bool :=
  let n := nat_of_ascii c in
  ((Nat.leb 9 n && Nat.leb n 13) || (Nat.leb 28 n && Nat.leb n 32))%bool.

Definition fence : list ascii := chars "```".
Definition tag : list ascii := chars "json".
End Fixtures.

(* ================================================================= *)
(** ** More vocabulary *)

Section ResultShapes.
Context {PF : PyFloat}.

(** [r] is what the loop of [execute_trades] builds for [d]: the result
    of its [try] branch or of its [except] branch. *)
Definition attempt_of (d : InvestmentDecision) (r : TradeResult) : Prop :=
  (exists order p ts, r = filled_result d order p ts) \/
  (exists e ts, r = failed_result d e ts).

(** The fields of a result agree with its [success] flag. *)
Definition consistent_result (r : TradeResult) : Prop :=
  tr_action r = "BUY" /\ 0 < tr_shares r /\
  (success r = true ->
   order_id r <> None /\ error_message r = None /\
   total_value r = fmul_int (price r) (tr_shares r)) /\
  (success r = false ->
   order_id r = None /\ error_message r <> None /\
   price r = fzero /\ total_value r = fzero).

(** The last position of the broker's list that carries the symbol. *)
Definition last_position (ps : list Position) (sym : string) : option Position :=
  find (fun p => String.eqb (pos_symbol p) sym) (rev ps).

(** The last fundamentals record that carries the ticker. *)
Definition last_fundamental (fs : list FundamentalData) (tkr : string)
  : option FundamentalData :=
  find (fun f => String.eqb (fund_ticker f) tkr) (rev fs).
End ResultShapes.

(** A broker whose fill price arrives as text. *)
Module TextFixtures.

#[local] Instance TextFloat : PyFloat := {|
  float := Z;
  raw := string;
  float_of := fun r =>
    if String.eqb r "150" then Ok 150
    else Raise (Exc ValueError "could not convert string to float");
  truthy := fun r => negb (String.eqb r "");
  fzero := 0;
  fmul_int := Z.mul;
  float_of_int := fun n =>
    if Z.log2 (Z.abs n) <? 1024 then Ok n
    else Raise (Exc OverflowError "int too large to convert to float")
|}.

Definition services (fill_price : string) : Services nat := {|
  environ := fun k =>
    if String.eqb k "ALPACA_API_KEY" then Some "key"
    else if String.eqb k "ALPACA_API_SECRET" then Some "secret"
    else None;
  get_clock := fun _ w => (w, Ok true);
  get_account := fun _ w =>
    (w, Ok {| account_cash := "150"; account_portfolio_value := "150";
              account_buying_power := "150" |});
  get_all_positions := fun _ w => (w, Ok []);
  submit_order := fun _ req w =>
    (S w, Ok {| order_ident := req_symbol req;
                filled_avg_price := fill_price |});
  research_companies := fun w => (w, Ok Demo.five_picks);
  analyze_fundamentals := fun _ w =>
    (w, Ok {| fundamentals := []; claude_timestamp := "t" |});
  make_investment_decision := fun _ _ capital _ w =>
    (w, Ok {| decisions := []; portfolio_risk_analysis := "";
              grok_available_capital := capital |});
  now_isoformat := fun w => (w, "t")
|}.

Definition buy (tkr : string) (n : Z) : InvestmentDecision :=
  {| company := tkr; ticker := tkr; action := "BUY"; shares := n;
     rationale := ""; confidence := 1; risk_assessment := "" |}.

Definition client : TradingClient :=
  {| client_api_key := "key"; client_api_secret := "secret"; paper := true |}.

Definition start_state : pstate Call nat := {| world := O; trace := [] |}.

Definition order (ident fill_price : string) : Order :=
  {| order_ident := ident; filled_avg_price := fill_price |}.

Definition request (tkr : string) (n : Z) : MarketOrderRequest :=
  {| req_symbol := tkr; req_qty := n; req_side := BUY;
     req_time_in_force := DAY |}.
End TextFixtures.

(* ================================================================= *)
(** * Properties *)

(** ** The monad *)

Section MonadFacts.
Context {Call W : Type}.

Lemma bind_ok {A B} (m : M Call W A) (k : A -> M Call W B) s s' a :
  m s = (s', Ok a) -> bind m k s = k a s'.
Proof. intros H. unfold bind. now rewrite H. Qed.

Lemma bind_raise {A B} (m : M Call W A) (k : A -> M Call W B) s s' e :
  m s = (s', Raise e) -> bind m k s = (s', Raise e).
Proof. intros H. unfold bind. now rewrite H. Qed.

Lemma bind_inv_ok {A B} (m : M Call W A) (k : A -> M Call W B) s s2 b :
  bind m k s = (s2, Ok b) ->
  exists s1 a, m s = (s1, Ok a) /\ k a s1 = (s2, Ok b).
Proof.
  unfold bind. destruct (m s) as [s1 [a | e]]; intros H.
  - now exists s1, a.
  - discriminate.
Qed.

Lemma try_except_ok {A} (body : M Call W A) h s s' a :
  body s = (s', Ok a) -> try_except body h s = (s', Ok a).
Proof. intros H. unfold try_except. now rewrite H. Qed.

Lemma try_except_raise {A} (body : M Call W A) h s s' e :
  body s = (s', Raise e) -> try_except body h s = h e s'.
Proof. intros H. unfold try_except. now rewrite H. Qed.

Lemma call_trace {A} (c : Call) (f : W -> W * result A) s :
  trace (fst (call c f s)) = trace s ++ [c].
Proof. unfold call. now destruct (f (world s)). Qed.

Lemma call_eq {A} (c : Call) (f : W -> W * result A) s :
  call c f s =
  ({| world := fst (f (world s)); trace := trace s ++ [c] |},
   snd (f (world s))).
Proof. unfold call. now destruct (f (world s)). Qed.

Lemma observe_eq {A} (f : W -> W * A) (s : pstate Call W) :
  observe f s =
  ({| world := fst (f (world s)); trace := trace s |},
   Ok (snd (f (world s)))).
Proof. unfold observe. now destruct (f (world s)). Qed.
End MonadFacts.

(** ** [alpaca_client.py] *)

Section AlpacaFacts.
Context {PF : PyFloat} {W : Type} (svc : Services W).

(** The loop guard is the negation of "is a buy order". *)
Lemma skipped_is_buy_order (d : InvestmentDecision) :
  skipped d = negb (is_buy_order d).
Proof.
  unfold skipped, is_buy_order.
  destruct (String.eqb (action d) "BUY"); simpl; [| reflexivity].
  rewrite Z.leb_antisym. reflexivity.
Qed.

(** [get_alpaca_client] touches neither the world nor the trace; it
    raises exactly when a credential is missing. *)
Lemma get_alpaca_client_cases (s : pstate Call W) :
  (credentials_set svc = true /\
   exists client, get_alpaca_client svc s = (s, Ok client)) \/
  (credentials_set svc = false /\
   exists e, get_alpaca_client svc s = (s, Raise e) /\
             exc_class e = ValueError).
Proof.
  unfold credentials_set, get_alpaca_client.
  destruct (falsy_str (environ svc "ALPACA_API_KEY")),
           (falsy_str (environ svc "ALPACA_API_SECRET")); simpl;
    try (right; split; [reflexivity | eexists; split; reflexivity]).
  left. split; [reflexivity | eexists; reflexivity].
Qed.

Lemma get_alpaca_client_ok :
  credentials_set svc = true ->
  exists client, forall s' : pstate Call W,
    get_alpaca_client svc s' = (s', Ok client).
Proof.
  unfold credentials_set, get_alpaca_client. intros H.
  destruct (falsy_str (environ svc "ALPACA_API_KEY")),
           (falsy_str (environ svc "ALPACA_API_SECRET"));
    try discriminate.
  eexists. intros s'. reflexivity.
Qed.

(** One decision that is not skipped: whatever the request constructor,
    [submit_order] and [float()] do, the guarded body ends normally with
    exactly one more result, for this decision, and at most one more
    call, the order, made when the request could be built. *)
Lemma attempt_total client (d : InvestmentDecision) results s :
  exists s' r,
    try_except (place_order svc client d results)
               (record_failure svc d results) s = (s', Ok (results ++ [r])) /\
    trace s' = trace s ++ order_call d /\
    tr_ticker r = ticker d /\ tr_shares r = shares d /\
    tr_action r = "BUY" /\
    (success r = false -> exists msg, error_message r = Some msg).
Proof.
  unfold try_except, place_order, record_failure, bind, lift, order_call.
  destruct (market_order d) as [req | e0].
  2: { rewrite observe_eq. do 2 eexists. split; [reflexivity |].
       cbn. rewrite app_nil_r. repeat split; try reflexivity.
       intros _. eexists; reflexivity. }
  rewrite call_eq.
  destruct (snd (submit_order svc client req (world s)))
    as [order | e]; cbn [fst snd].
  - destruct (truthy (filled_avg_price order)).
    + destruct (float_of (filled_avg_price order)) as [p | e].
      * rewrite observe_eq. do 2 eexists. split; [reflexivity |].
        cbn. repeat split; try reflexivity. discriminate.
      * rewrite observe_eq. do 2 eexists. split; [reflexivity |].
        cbn. repeat split; try reflexivity. intros _. eexists; reflexivity.
    + unfold ret. rewrite observe_eq. do 2 eexists. split; [reflexivity |].
      cbn. repeat split; try reflexivity. discriminate.
  - rewrite observe_eq. do 2 eexists. split; [reflexivity |].
    cbn. repeat split; try reflexivity. intros _. eexists; reflexivity.
Qed.
End AlpacaFacts.

Section LoopFacts.
Context {PF : PyFloat} {W : Type} (svc : Services W).

Lemma loop_skip client (d : InvestmentDecision) rest results :
  is_buy_order d = false ->
  execute_trades_loop svc client (d :: rest) results =
  execute_trades_loop svc client rest results.
Proof.
  intros H. cbn [execute_trades_loop].
  rewrite skipped_is_buy_order, H. reflexivity.
Qed.

Lemma loop_attempt client (d : InvestmentDecision) rest results :
  is_buy_order d = true ->
  execute_trades_loop svc client (d :: rest) results =
  bind (try_except (place_order svc client d results)
                   (record_failure svc d results))
       (fun results' => execute_trades_loop svc client rest results').
Proof.
  intros H. cbn [execute_trades_loop].
  rewrite skipped_is_buy_order, H. reflexivity.
Qed.

(** The loop never raises: it ends with one result per buy order, in
    the order of the decisions, behind the results it started with, and
    its only remote calls are the orders. *)
Lemma loop_total client (ds : list InvestmentDecision) :
  forall results s,
  exists s' rs,
    execute_trades_loop svc client ds results s = (s', Ok (results ++ rs)) /\
    trace s' = trace s ++ orders_of ds /\
    Forall2 result_for (filter is_buy_order ds) rs.
Proof.
  induction ds as [| d rest IH]; intros results s.
  - exists s, []. cbn. rewrite !app_nil_r. repeat split. constructor.
  - destruct (is_buy_order d) eqn:Hd.
    + rewrite loop_attempt by assumption.
      destruct (attempt_total svc client d results s)
        as (s1 & r & Hstep & Htr & Hr).
      rewrite (bind_ok _ _ _ Hstep).
      destruct (IH (results ++ [r]) s1) as (s' & rs & Hloop & Htr' & Hrs).
      exists s', (r :: rs). split; [| split].
      * rewrite Hloop, <- app_assoc. reflexivity.
      * rewrite Htr', Htr. unfold orders_of. cbn [filter]. rewrite Hd.
        cbn [flat_map]. rewrite <- !app_assoc. reflexivity.
      * cbn [filter]. rewrite Hd. constructor; assumption.
    + rewrite loop_skip by assumption.
      destruct (IH results s) as (s' & rs & Hloop & Htr' & Hrs).
      exists s', rs. split; [assumption | split].
      * rewrite Htr'. unfold orders_of. cbn [filter]. rewrite Hd. reflexivity.
      * cbn [filter]. rewrite Hd. assumption.
Qed.

(** Running the loop over [pre ++ post] is running it over [pre] and
    then over [post] from the results and the world [pre] left. *)
Lemma loop_app client (pre post : list InvestmentDecision) :
  forall results s,
    execute_trades_loop svc client (pre ++ post) results s =
    bind (execute_trades_loop svc client pre results)
         (fun results' => execute_trades_loop svc client post results') s.
Proof.
  induction pre as [| d pre IH]; intros results s.
  - reflexivity.
  - cbn [app]. destruct (is_buy_order d) eqn:Hd.
    + rewrite !loop_attempt by assumption.
      unfold bind.
      destruct (try_except _ _ s) as [s1 [results1 | e]].
      * rewrite IH. reflexivity.
      * reflexivity.
    + rewrite !loop_skip by assumption. apply IH.
Qed.

(** What [execute_trades] returns normally. *)
Lemma execute_trades_ok (ds : list InvestmentDecision) s s' results :
  execute_trades svc ds s = (s', Ok results) ->
  trace s' = trace s ++ orders_of ds /\
  Forall2 result_for (filter is_buy_order ds) results.
Proof.
  unfold execute_trades. intros H.
  apply bind_inv_ok in H. destruct H as (s1 & client & Hc & Hloop).
  destruct (get_alpaca_client_cases svc s) as [[_ [c Hc']] | [_ [e [Hc' _]]]];
    rewrite Hc' in Hc; [| discriminate].
  injection Hc as Hs Hcl. subst s1 client.
  destruct (loop_total c ds [] s) as (s2 & rs & Hl & Htr & Hrs).
  rewrite Hl in Hloop. injection Hloop as <- <-.
  split; assumption.
Qed.

(** With the credentials in place [execute_trades] returns normally. *)
Lemma execute_trades_total (ds : list InvestmentDecision) s :
  credentials_set svc = true ->
  exists s' results, execute_trades svc ds s = (s', Ok results).
Proof.
  intros Hcred. unfold execute_trades.
  destruct (get_alpaca_client_ok svc Hcred) as [client Hc].
  rewrite (bind_ok _ _ _ (Hc s)).
  destruct (loop_total client ds [] s) as (s2 & rs & Hl & _).
  exists s2, rs. exact Hl.
Qed.
End LoopFacts.

Section ExecutionClaims.
Context {PF : PyFloat} {W : Type} (svc : Services W).

(** The only exception that leaves [execute_trades] is the
    [ValueError] of [get_alpaca_client], raised before the first
    decision is looked at. *)
Lemma execute_trades_raise (ds : list InvestmentDecision) s s' e :
  execute_trades svc ds s = (s', Raise e) ->
  s' = s /\ credentials_set svc = false /\ exc_class e = ValueError.
Proof.
  unfold execute_trades, bind. intros H.
  destruct (get_alpaca_client_cases svc s)
    as [[_ [c Hc]] | [Hcred [e' [Hc He']]]]; rewrite Hc in H.
  - destruct (loop_total svc c ds [] s) as (s2 & rs & Hl & _).
    rewrite Hl in H. discriminate.
  - injection H as <- <-. auto.
Qed.

Lemma fold_all_successful (l : list TradeResult) (b : bool) :
  fold_left (fun all_successful result =>
               if success result then all_successful else false) l b
  = (b && forallb success l)%bool.
Proof.
  revert b. induction l as [| r l IH]; intros b; cbn.
  - now rewrite andb_true_r.
  - rewrite IH. destruct (success r), b; reflexivity.
Qed.

Lemma check_results_forallb (l : list TradeResult) :
  check_results l = forallb success l.
Proof.
  unfold check_results. rewrite fold_all_successful.
  destruct l; reflexivity.
Qed.

Lemma failures_zero (l : list TradeResult) :
  failures l = 0%nat <-> forallb success l = true.
Proof.
  unfold failures. induction l as [| r l IH]; cbn.
  - tauto.
  - destruct (success r); cbn; [exact IH |].
    split; discriminate.
Qed.

Lemma Forall2_result_for_keys (ds : list InvestmentDecision) rs :
  Forall2 result_for ds rs ->
  map (fun r => (tr_ticker r, tr_shares r)) rs =
  map (fun d => (ticker d, shares d)) ds.
Proof.
  induction 1 as [| d r ds rs (Ht & Hs & _) _ IH]; cbn.
  - reflexivity.
  - now rewrite Ht, Hs, IH.
Qed.

(** C3, as amended.  [execute_trades] returns one [TradeResult] per
    decision that is a buy order (action "BUY", shares > 0), in the
    order of the decisions, and none for any other decision; the
    pipeline's [all_successful] over these results is true exactly
    when the number K of failed results is zero. *)
Theorem execute_trades_one_result_per_buy_order
        (ds : list InvestmentDecision) s s' results :
  execute_trades svc ds s = (s', Ok results) ->
  length results = length (filter is_buy_order ds) /\
  map (fun r => (tr_ticker r, tr_shares r)) results =
    map (fun d => (ticker d, shares d)) (filter is_buy_order ds) /\
  (check_results results = true <-> failures results = 0%nat).
Proof.
  intros H. apply execute_trades_ok in H. destruct H as [_ Hrs].
  split; [| split].
  - symmetry. eapply Forall2_length. eassumption.
  - now apply Forall2_result_for_keys.
  - rewrite check_results_forallb. symmetry. apply failures_zero.
Qed.

(** C6.  When the attempt for a decision raises (in the request
    constructor, in [submit_order] or in [float()]), the exception is
    caught and recorded as a result with [success = False] and
    [error_message = str(e)]; the loop then goes on with the remaining
    decisions, submits the order of every buy decision among them whose
    request can be built, records a result for each buy decision, and
    [execute_trades] returns normally. *)
Theorem execute_trades_isolates_failures
        client (pre : list InvestmentDecision) d rest s s1 results1 s2 e :
  get_alpaca_client svc s = (s, Ok client) ->
  execute_trades svc pre s = (s1, Ok results1) ->
  is_buy_order d = true ->
  place_order svc client d results1 s1 = (s2, Raise e) ->
  exists s' ts rs,
    execute_trades svc (pre ++ d :: rest) s =
      (s', Ok (results1 ++ failed_result d e ts :: rs)) /\
    success (failed_result d e ts) = false /\
    error_message (failed_result d e ts) = Some (str_exn e) /\
    trace s' = trace s2 ++ orders_of rest /\
    Forall2 result_for (filter is_buy_order rest) rs.
Proof.
  intros Hc Hpre Hd Hfail.
  unfold execute_trades in *.
  rewrite (bind_ok _ _ _ Hc) in Hpre.
  rewrite (bind_ok _ _ _ Hc), loop_app, (bind_ok _ _ _ Hpre).
  rewrite loop_attempt by assumption.
  set (ts := snd (now_isoformat svc (world s2))).
  set (s3 := {| world := fst (now_isoformat svc (world s2));
                trace := trace s2 |}).
  assert (Hstep : try_except (place_order svc client d results1)
                             (record_failure svc d results1) s1
                  = (s3, Ok (results1 ++ [failed_result d e ts]))).
  { rewrite (try_except_raise _ _ _ Hfail).
    unfold record_failure, bind. rewrite observe_eq. reflexivity. }
  rewrite (bind_ok _ _ _ Hstep).
  destruct (loop_total svc client rest (results1 ++ [failed_result d e ts]) s3)
    as (s' & rs & Hl & Htr & Hrs).
  exists s', ts, rs. rewrite Hl, <- app_assoc.
  repeat split; assumption.
Qed.

(** Every order in [orders_of] is the request built for a decision of
    the list with action "BUY" and shares > 0. *)
Lemma orders_of_buy_decisions (ds : list InvestmentDecision) req :
  In (CallSubmitOrder req) (orders_of ds) ->
  exists d, In d ds /\ action d = "BUY" /\ 0 < shares d /\
            market_order d = Ok req.
Proof.
  unfold orders_of. intros H. apply in_flat_map in H.
  destruct H as (d & Hd & Hcall). apply filter_In in Hd.
  destruct Hd as [Hin Hbuy]. unfold is_buy_order in Hbuy.
  apply andb_true_iff in Hbuy. destruct Hbuy as [Ha Hs].
  apply String.eqb_eq in Ha. apply Z.ltb_lt in Hs.
  exists d. repeat split; try assumption.
  unfold order_call in Hcall. destruct (market_order d) as [req' | e].
  - destruct Hcall as [Heq | []]. now injection Heq as ->.
  - destruct Hcall.
Qed.

(** C9.  The calls [execute_trades] makes are exactly the orders of the
    decisions with action "BUY" and shares > 0 whose request can be
    built, one each and in order: every order submitted is the request
    of such a decision.  It returns exactly one result for each decision
    with action "BUY" and shares > 0; a decision with action "SELL" or
    "HOLD", or with shares <= 0, is none of them. *)
Theorem execute_trades_only_buy_orders
        (ds : list InvestmentDecision) s s' results :
  execute_trades svc ds s = (s', Ok results) ->
  trace s' = trace s ++ orders_of ds /\
  (forall req, In (CallSubmitOrder req) (orders_of ds) ->
               exists d, In d ds /\ action d = "BUY" /\ 0 < shares d /\
                         market_order d = Ok req) /\
  Forall2 result_for (filter is_buy_order ds) results /\
  (forall d, action d = "SELL" \/ action d = "HOLD" \/ shares d <= 0 ->
             skipped d = true /\ ~ In d (filter is_buy_order ds)).
Proof.
  intros H. apply execute_trades_ok in H. destruct H as [Htr Hrs].
  split; [assumption |].
  split; [intros req; apply orders_of_buy_decisions |].
  split; [assumption |].
  intros d Hd.
  assert (Hno : is_buy_order d = false).
  { unfold is_buy_order. destruct Hd as [Ha | [Ha | Hs]].
    - rewrite Ha. reflexivity.
    - rewrite Ha. reflexivity.
    - apply andb_false_iff. right. apply Z.ltb_ge. assumption. }
  split.
  - rewrite skipped_is_buy_order, Hno. reflexivity.
  - intros Hin. apply filter_In in Hin. destruct Hin as [_ Hin]. congruence.
Qed.
End ExecutionClaims.

(** C3 as written fails: handed one decision to sell five shares (N = 1),
    [execute_trades] returns no result at all. *)
Lemma execute_trades_drops_sell :
  execute_trades (Demo.services Demo.nothing_to_do)
                 [Demo.decision "BBB" "SELL" 5] Demo.start_state
  = (Demo.start_state, Ok []) /\
  forall results,
    execute_trades (Demo.services Demo.nothing_to_do)
                   [Demo.decision "BBB" "SELL" 5] Demo.start_state
    = (Demo.start_state, Ok results) ->
    length results <> length [Demo.decision "BBB" "SELL" 5].
Proof.
  split; [reflexivity |].
  intros results H. vm_compute in H. injection H as <-. discriminate.
Qed.

Lemma execute_trades_one_result_per_buy_order_witness :
  exists results : list (@TradeResult Demo.CentsFloat),
    length results = 2%nat /\
    map (fun r => (tr_ticker r, tr_shares r)) results = [("AAA", 10); ("CCC", 3)] /\
    (check_results results = true <-> failures results = 0%nat).
Proof.
  eexists.
  eapply (@execute_trades_one_result_per_buy_order Demo.CentsFloat nat
           (Demo.services Demo.one_rejected) Demo.mixed_decisions
           Demo.start_state).
  vm_compute. reflexivity.
Defined.

Lemma execute_trades_isolates_failures_witness :
  let svc := Demo.services Demo.one_rejected in
  let d := Demo.decision "AAA" "BUY" 10 in
  let rest := [Demo.decision "BBB" "SELL" 5;
               Demo.decision "BIG" "BUY" (10 ^ 309);
               Demo.decision "CCC" "BUY" 3] in
  let e := Exc OtherError "insufficient buying power" in
  exists s' ts rs,
    execute_trades svc ([Demo.decision "DDD" "HOLD" 0] ++ d :: rest)
                   Demo.start_state
      = (s', Ok ([] ++ failed_result d e ts :: rs)) /\
    success (failed_result d e ts) = false /\
    error_message (failed_result d e ts) = Some (str_exn e) /\
    trace s' =
      trace {| world := O; trace := order_call d |}
      ++ orders_of rest /\
    Forall2 result_for (filter is_buy_order rest) rs.
Proof.
  intros svc d rest e.
  eapply (@execute_trades_isolates_failures Demo.CentsFloat nat svc
            {| client_api_key := "key"; client_api_secret := "secret";
               paper := true |}
            [Demo.decision "DDD" "HOLD" 0] d rest Demo.start_state
            Demo.start_state []).
  - reflexivity.
  - reflexivity.
  - reflexivity.
  - reflexivity.
Defined.

Lemma execute_trades_only_buy_orders_witness :
  exists (s' : pstate Call nat) (results : list (@TradeResult Demo.CentsFloat)),
    trace s' = trace Demo.start_state ++ orders_of Demo.mixed_decisions /\
    (forall req, In (CallSubmitOrder req) (orders_of Demo.mixed_decisions) ->
                 exists d, In d Demo.mixed_decisions /\ action d = "BUY" /\
                           0 < shares d /\ market_order d = Ok req) /\
    Forall2 result_for (filter is_buy_order Demo.mixed_decisions) results /\
    (forall d, action d = "SELL" \/ action d = "HOLD" \/ shares d <= 0 ->
               skipped d = true /\
               ~ In d (filter is_buy_order Demo.mixed_decisions)).
Proof.
  do 2 eexists.
  eapply (@execute_trades_only_buy_orders Demo.CentsFloat nat
            (Demo.services Demo.one_rejected) Demo.mixed_decisions
            Demo.start_state).
  vm_compute. reflexivity.
Defined.

(** ** [scheduler.py] *)

Section SchedulerFacts.
Context {St : Type} (task_func : St -> St * result bool).

Lemma run_task_success (self : EduardoScheduler St) s' :
  task_func (task_state self) = (s', Ok true) ->
  run_task task_func self =
  {| retry_scheduled := false; jobs := jobs self;
     task_state := s'; task_calls := S (task_calls self) |}.
Proof. intros H. unfold run_task, call_task. rewrite H. reflexivity. Qed.

Lemma run_task_failure (self : EduardoScheduler St) s' r :
  task_func (task_state self) = (s', r) ->
  failed r = true ->
  run_task task_func self =
  {| retry_scheduled := true;
     jobs := jobs self ++ (if retry_scheduled self then [] else [retry_job]);
     task_state := s'; task_calls := S (task_calls self) |}.
Proof.
  intros H Hr. unfold run_task, call_task. rewrite H.
  assert (E : forall x : EduardoScheduler St,
             match r with
             | Ok true => set_retry_scheduled false x
             | Ok false => _schedule_retry x
             | Raise _ => _schedule_retry x
             end = _schedule_retry x).
  { intros x. destruct r as [[|]|]; try reflexivity. discriminate. }
  rewrite E. unfold _schedule_retry, add_job, set_retry_scheduled.
  destruct self as [flag js st n]. cbn.
  destruct flag; cbn; [rewrite app_nil_r |]; reflexivity.
Qed.

Lemma retry_once_eq (self : EduardoScheduler St) :
  _retry_once task_func self =
  {| retry_scheduled := false; jobs := jobs self;
     task_state := fst (task_func (task_state self));
     task_calls := S (task_calls self) |}.
Proof.
  unfold _retry_once, call_task, set_retry_scheduled. cbn.
  destruct (task_func (task_state self)). reflexivity.
Qed.

Lemma filter_remove_nth_retry (js : list Job) i j :
  nth_error js i = Some j -> is_retry j = true ->
  S (length (filter is_retry (remove_nth i js))) = length (filter is_retry js).
Proof.
  revert i. induction js as [| x js IH]; intros [| i] H Hj; cbn in *;
    try discriminate.
  - injection H as ->. rewrite Hj. reflexivity.
  - destruct (is_retry x); cbn; rewrite (IH i H Hj); reflexivity.
Qed.
End SchedulerFacts.

Section SchedulerClaims.
Context {St : Type} (task_func : St -> St * result bool).

Lemma run_task_shape (self : EduardoScheduler St) s' r :
  task_func (task_state self) = (s', r) ->
  run_task task_func self =
  {| retry_scheduled := failed r;
     jobs := jobs self ++
             (if (failed r && negb (retry_scheduled self))%bool
              then [retry_job] else []);
     task_state := s'; task_calls := S (task_calls self) |}.
Proof.
  intros H. destruct (failed r) eqn:Hr.
  - rewrite (run_task_failure _ _ H Hr).
    destruct (retry_scheduled self); reflexivity.
  - destruct r as [[|]|]; try discriminate.
    rewrite (run_task_success _ _ H). cbn. now rewrite app_nil_r.
Qed.

(** C4, as amended.  [run_now] is [run_task]: it calls the task once;
    afterwards [retry_scheduled] is False if the task returned True and
    True if it returned False or raised, and a retry job has been
    registered exactly when the run failed while [retry_scheduled] was
    False. *)
Theorem run_now_is_run_task (self : EduardoScheduler St) s' r :
  task_func (task_state self) = (s', r) ->
  run_now task_func self = run_task task_func self /\
  task_calls (run_now task_func self) = S (task_calls self) /\
  task_state (run_now task_func self) = s' /\
  retry_scheduled (run_now task_func self) = failed r /\
  jobs (run_now task_func self) =
    jobs self ++ (if (failed r && negb (retry_scheduled self))%bool
                  then [retry_job] else []).
Proof.
  intros H. unfold run_now. rewrite (run_task_shape _ H). cbn.
  repeat split; reflexivity.
Qed.

(** C5.  When a pending retry job fires, the task is run exactly once:
    it is called once, from the state the scheduler held, and the state
    it leaves is the state afterwards.  Whatever it returned or raised,
    [retry_scheduled] is False afterwards, the job that fired is gone
    and no job has been added: one retry fewer is pending, so from a
    state with one retry armed none is left. *)
Theorem retry_fires_once_and_disarms
        (self : EduardoScheduler St) i j s' r :
  nth_error (jobs self) i = Some j ->
  job_func j = RetryOnce ->
  task_func (task_state self) = (s', r) ->
  task_calls (run_job task_func i self) = S (task_calls self) /\
  task_state (run_job task_func i self) = s' /\
  retry_scheduled (run_job task_func i self) = false /\
  jobs (run_job task_func i self) = remove_nth i (jobs self) /\
  S (pending_retries (run_job task_func i self)) = pending_retries self /\
  (pending_retries self = 1%nat ->
   pending_retries (run_job task_func i self) = 0%nat).
Proof.
  intros Hi Hj Ht. unfold run_job. rewrite Hi, Hj, retry_once_eq, Ht.
  unfold cancel_job, pending_retries. cbn.
  assert (Hr : is_retry j = true) by (unfold is_retry; now rewrite Hj).
  pose proof (filter_remove_nth_retry _ _ Hi Hr) as Hlen.
  repeat split; try assumption.
  intros H1. rewrite H1 in Hlen. now injection Hlen.
Qed.

(** The flag never overstates: while [retry_scheduled] is True a retry
    job is registered.  The converse does not hold. *)
Lemma flag_implies_pending (es : list (event)) :
  forall self : EduardoScheduler St,
    (retry_scheduled self = true -> (1 <= pending_retries self)%nat) ->
    retry_scheduled (run_events task_func es self) = true ->
    (1 <= pending_retries (run_events task_func es self))%nat.
Proof.
  assert (Hrun : forall self : EduardoScheduler St,
             (retry_scheduled self = true -> (1 <= pending_retries self)%nat) ->
             retry_scheduled (run_task task_func self) = true ->
             (1 <= pending_retries (run_task task_func self))%nat).
  { intros self Hinv.
    destruct (task_func (task_state self)) as [s' r] eqn:Ht.
    rewrite (run_task_shape _ Ht). unfold pending_retries. cbn.
    intros Hr. rewrite Hr, filter_app, length_app. cbn.
    destruct (retry_scheduled self); cbn; [| lia].
    specialize (Hinv eq_refl). unfold pending_retries in Hinv. lia. }
  induction es as [| e es IH]; intros self Hinv; cbn.
  - exact Hinv.
  - apply IH. destruct e as [i |]; cbn.
    + unfold run_job. destruct (nth_error (jobs self) i) as [j |];
        [| exact Hinv].
      destruct (job_func j).
      * now apply Hrun.
      * rewrite retry_once_eq. cbn. discriminate.
    + now apply Hrun.
Qed.
End SchedulerClaims.

(** C4 as written fails: a manual run that fails turns [retry_scheduled]
    from False to True and registers a retry job. *)
Lemma run_now_changes_retry_state :
  let self := init [Ok false] in
  let self' := run_now Demo.scripted_task self in
  retry_scheduled self = false /\ retry_scheduled self' = true /\
  pending_retries self = 0%nat /\ pending_retries self' = 1%nat.
Proof. repeat split. Qed.

Lemma run_now_is_run_task_witness :
  let self := init [Raise (Exc OtherError "boom"); Ok true] in
  run_now Demo.scripted_task self = run_task Demo.scripted_task self /\
  task_calls (run_now Demo.scripted_task self) = 1%nat /\
  task_state (run_now Demo.scripted_task self) = [Ok true] /\
  retry_scheduled (run_now Demo.scripted_task self) = true /\
  jobs (run_now Demo.scripted_task self) = [] ++ [retry_job].
Proof.
  intros self.
  apply (run_now_is_run_task Demo.scripted_task self (s' := [Ok true])
           (r := Raise (Exc OtherError "boom"))).
  reflexivity.
Defined.

Lemma retry_fires_once_and_disarms_witness :
  let self := run_task Demo.scripted_task
                (start_register (init [Ok false; Ok false])) in
  task_calls (run_job Demo.scripted_task 1 self) = 2%nat /\
  task_state (run_job Demo.scripted_task 1 self) = [] /\
  retry_scheduled (run_job Demo.scripted_task 1 self) = false /\
  jobs (run_job Demo.scripted_task 1 self) = [weekly_job] /\
  S (pending_retries (run_job Demo.scripted_task 1 self)) = 1%nat /\
  (pending_retries self = 1%nat ->
   pending_retries (run_job Demo.scripted_task 1 self) = 0%nat).
Proof.
  intros self.
  apply (retry_fires_once_and_disarms Demo.scripted_task self 1
           (j := retry_job) (s' := []) (r := Ok false)).
  - reflexivity.
  - reflexivity.
  - reflexivity.
Defined.

(** C2 fails on the code.  A run fails and arms a retry; the next run
    succeeds, which clears [retry_scheduled] but leaves the retry job
    registered; a third run fails and, finding the flag clear, registers
    another retry job: two retries are pending.  Shown for three manual
    runs on a fresh scheduler, and for a failed weekly run followed by
    two manual runs. *)
Theorem second_retry_armed_while_one_pending :
  let outcomes := [Ok false; Ok true; Ok false] in
  let manual n := run_events Demo.scripted_task (repeat ManualRun n)
                             (init outcomes) in
  let mixed es := run_events Demo.scripted_task es
                             (start_register (init outcomes)) in
  (pending_retries (manual 1%nat) = 1%nat /\
   retry_scheduled (manual 1%nat) = true) /\
  (pending_retries (manual 2%nat) = 1%nat /\
   retry_scheduled (manual 2%nat) = false) /\
  (pending_retries (manual 3%nat) = 2%nat /\
   jobs (manual 3%nat) = [retry_job; retry_job]) /\
  (pending_retries (mixed [JobDue O; ManualRun; ManualRun]) = 2%nat /\
   jobs (mixed [JobDue O; ManualRun; ManualRun])
     = [weekly_job; retry_job; retry_job]).
Proof. repeat split. Qed.

(** ** [main.py] *)

Section PipelineFacts.
Context {PF : PyFloat} {W : Type} (svc : Services W).

Lemma check_market_open_inv s s1 b :
  check_market_open svc s = (s1, Ok b) ->
  credentials_set svc = true /\ trace s1 = trace s ++ [CallGetClock].
Proof.
  unfold check_market_open, bind. intros H.
  destruct (get_alpaca_client_cases svc s)
    as [[Hcred [c Hc]] | [_ [e [Hc _]]]]; rewrite Hc in H;
    [| discriminate].
  rewrite call_eq in H. injection H as <- _. auto.
Qed.

Lemma get_account_info_inv s1 s2 acct :
  get_account_info svc s1 = (s2, Ok acct) ->
  trace s2 = trace s1 ++ [CallGetAccount; CallGetAllPositions].
Proof.
  unfold get_account_info, bind, lift, ret. intros H.
  destruct (get_alpaca_client_cases svc s1)
    as [[_ [c Hc]] | [_ [e [Hc _]]]]; rewrite Hc in H; [| discriminate].
  rewrite call_eq in H.
  destruct (snd (get_account svc c (world s1))); [| discriminate].
  rewrite call_eq in H. cbn [fst snd world trace] in H.
  destruct (snd (get_all_positions svc c _)); [| discriminate].
  destruct (positions_loop _ _); [| discriminate].
  destruct (float_of (account_cash _)); [| discriminate].
  destruct (float_of (account_portfolio_value _)); [| discriminate].
  destruct (float_of (account_buying_power _)); [| discriminate].
  injection H as <- _. cbn. now rewrite <- app_assoc.
Qed.

(** The pipeline never raises. *)
Lemma run_trading_pipeline_returns s :
  exists s' b, run_trading_pipeline svc s = (s', Ok b).
Proof.
  unfold run_trading_pipeline, try_except.
  destruct (pipeline_body svc s) as [s' [b | e]].
  - now exists s', b.
  - now exists s', false.
Qed.

(** When every stage answers, the run returns the [all_successful] of
    the results of [execute_trades]. *)
Lemma run_trading_pipeline_completed
      s s1 s2 acct w3 gpt w4 claude w5 grok s6 results :
  check_market_open svc s = (s1, Ok true) ->
  get_account_info svc s1 = (s2, Ok acct) ->
  research_companies svc (world s2) = (w3, Ok gpt) ->
  analyze_fundamentals svc (picks gpt) w3 = (w4, Ok claude) ->
  make_investment_decision svc (picks gpt) (fundamentals claude)
                           (cash acct) (positions acct) w4 = (w5, Ok grok) ->
  execute_trades svc (decisions grok)
    {| world := w5;
       trace := ((trace s2 ++ [CallResearch]) ++ [CallAnalyze])
                ++ [CallDecide] |} = (s6, Ok results) ->
  run_trading_pipeline svc s = (s6, Ok (check_results results)).
Proof.
  intros Hopen Hacct Hres Han Hdec Hexec.
  unfold run_trading_pipeline, try_except, pipeline_body.
  rewrite (bind_ok _ _ _ Hopen). cbn [negb].
  rewrite (bind_ok _ _ _ Hacct).
  unfold bind at 1. unfold try_except_class, bind at 1.
  rewrite call_eq, Hres. cbn [fst snd ret].
  unfold bind at 1. rewrite call_eq. cbn [world trace]. rewrite Han.
  cbn [fst snd]. unfold bind at 1. rewrite call_eq. cbn [world trace].
  rewrite Hdec. cbn [fst snd].
  unfold bind at 1. rewrite Hexec. reflexivity.
Qed.

(** A closed market: [False] after the clock query alone. *)
Lemma run_trading_pipeline_market_closed s s1 :
  check_market_open svc s = (s1, Ok false) ->
  run_trading_pipeline svc s = (s1, Ok false) /\
  trace s1 = trace s ++ [CallGetClock].
Proof.
  intros H. split.
  - unfold run_trading_pipeline, try_except, pipeline_body.
    rewrite (bind_ok _ _ _ H). reflexivity.
  - apply (check_market_open_inv _ H).
Qed.
End PipelineFacts.

Section PipelineClaims.
Context {PF : PyFloat} {W : Type} (svc : Services W).

(** C1, as amended.  With the market closed [run_trading_pipeline]
    returns False after the clock query alone, so no stage is invoked;
    [run_task] handles that False as a failed run: [retry_scheduled] is
    True afterwards, and a retry job has been registered if
    [retry_scheduled] was False before. *)
Theorem market_closed_is_a_failed_run
        (self : EduardoScheduler (pstate Call W)) s1 :
  check_market_open svc (task_state self) = (s1, Ok false) ->
  run_trading_pipeline svc (task_state self) = (s1, Ok false) /\
  trace s1 = trace (task_state self) ++ [CallGetClock] /\
  task_state (run_task (run_trading_pipeline svc) self) = s1 /\
  retry_scheduled (run_task (run_trading_pipeline svc) self) = true /\
  jobs (run_task (run_trading_pipeline svc) self) =
    jobs self ++ (if retry_scheduled self then [] else [retry_job]).
Proof.
  intros H.
  destruct (run_trading_pipeline_market_closed _ _ H) as [Hrun Htr].
  rewrite (run_task_failure _ _ Hrun eq_refl). cbn.
  repeat split; assumption.
Qed.

(** C7.  When the market is open, the account is read, and the research
    stage raises (a [RateLimitError] or anything else), the run returns
    False; its remote calls are the clock, the account, the positions
    and the research call, so analysis, decision and execution were
    never invoked and no order was submitted. *)
Theorem research_failure_stops_the_run s s1 s2 acct w3 e :
  check_market_open svc s = (s1, Ok true) ->
  get_account_info svc s1 = (s2, Ok acct) ->
  research_companies svc (world s2) = (w3, Raise e) ->
  exists s3,
    run_trading_pipeline svc s = (s3, Ok false) /\
    world s3 = w3 /\
    trace s3 = trace s ++ [CallGetClock; CallGetAccount;
                           CallGetAllPositions; CallResearch] /\
    (forall added, trace s3 = trace s ++ added ->
                   existsb later_stage added = false).
Proof.
  intros Hopen Hacct Hres.
  pose proof (check_market_open_inv _ _ Hopen) as [_ Ht1].
  pose proof (get_account_info_inv _ _ Hacct) as Ht2.
  exists {| world := w3; trace := trace s2 ++ [CallResearch] |}.
  assert (Htr : trace s2 ++ [CallResearch] =
                trace s ++ [CallGetClock; CallGetAccount;
                            CallGetAllPositions; CallResearch]).
  { rewrite Ht2, Ht1, <- !app_assoc. reflexivity. }
  split; [| split; [reflexivity | split]].
  - unfold run_trading_pipeline, try_except, pipeline_body.
    rewrite (bind_ok _ _ _ Hopen). cbn [negb].
    rewrite (bind_ok _ _ _ Hacct).
    unfold bind, try_except_class. rewrite call_eq, Hres. cbn [fst snd].
    destruct (exn_class_eqb (exc_class e) RateLimitError); reflexivity.
  - exact Htr.
  - cbn [trace]. rewrite Htr. intros added Hadd.
    apply app_inv_head in Hadd. subst added. reflexivity.
Qed.

(** C8.  When every stage succeeds and the decision stage returns no
    decisions, the run returns True without submitting an order, and
    [run_task] treats it as a success: [retry_scheduled] is False
    afterwards and no job has been registered. *)
Theorem no_decisions_is_success
        (self : EduardoScheduler (pstate Call W))
        s1 s2 acct w3 gpt w4 claude w5 grok :
  check_market_open svc (task_state self) = (s1, Ok true) ->
  get_account_info svc s1 = (s2, Ok acct) ->
  research_companies svc (world s2) = (w3, Ok gpt) ->
  analyze_fundamentals svc (picks gpt) w3 = (w4, Ok claude) ->
  make_investment_decision svc (picks gpt) (fundamentals claude)
                           (cash acct) (positions acct) w4 = (w5, Ok grok) ->
  decisions grok = [] ->
  exists s',
    run_trading_pipeline svc (task_state self) = (s', Ok true) /\
    world s' = w5 /\
    trace s' = trace s2 ++ [CallResearch; CallAnalyze; CallDecide] /\
    retry_scheduled (run_task (run_trading_pipeline svc) self) = false /\
    jobs (run_task (run_trading_pipeline svc) self) = jobs self /\
    pending_retries (run_task (run_trading_pipeline svc) self)
      = pending_retries self.
Proof.
  intros Hopen Hacct Hres Han Hdec Hnil.
  pose proof (check_market_open_inv _ _ Hopen) as [Hcred _].
  set (s5 := {| world := w5;
                trace := ((trace s2 ++ [CallResearch]) ++ [CallAnalyze])
                         ++ [CallDecide] |}).
  assert (Hrun : run_trading_pipeline svc (task_state self) = (s5, Ok true)).
  { apply (run_trading_pipeline_completed _ _ Hopen Hacct Hres Han Hdec
             (results := [])).
    rewrite Hnil. unfold execute_trades.
    destruct (get_alpaca_client_ok svc Hcred) as [client Hc].
    unfold bind. rewrite Hc. reflexivity. }
  exists s5. split; [exact Hrun |].
  rewrite (run_task_success _ _ Hrun). subst s5. cbn.
  split; [reflexivity |].
  split; [now rewrite <- !app_assoc |].
  repeat split.
Qed.
End PipelineClaims.

(** C1 as written fails: with the market closed and no retry flagged,
    processing the outcome turns [retry_scheduled] from False to True and
    registers a retry job. *)
Lemma market_closed_arms_a_retry :
  let svc := Demo.services Demo.market_closed in
  let self := init Demo.start_state in
  let self' := run_task (run_trading_pipeline svc) self in
  check_market_open svc (task_state self)
    = ({| world := O; trace := [CallGetClock] |}, Ok false) /\
  retry_scheduled self = false /\ pending_retries self = 0%nat /\
  retry_scheduled self' = true /\ pending_retries self' = 1%nat /\
  jobs self' = [retry_job].
Proof. repeat split. Qed.

Lemma market_closed_is_a_failed_run_witness :
  let svc := Demo.services Demo.market_closed in
  let self := init Demo.start_state in
  let s1 := {| world := O; trace := [CallGetClock] |} in
  run_trading_pipeline svc (task_state self) = (s1, Ok false) /\
  trace s1 = trace (task_state self) ++ [CallGetClock] /\
  task_state (run_task (run_trading_pipeline svc) self) = s1 /\
  retry_scheduled (run_task (run_trading_pipeline svc) self) = true /\
  jobs (run_task (run_trading_pipeline svc) self) =
    jobs self ++ (if retry_scheduled self then [] else [retry_job]).
Proof.
  intros svc self s1.
  apply (market_closed_is_a_failed_run svc self (s1 := s1)).
  reflexivity.
Defined.

Lemma research_failure_stops_the_run_witness :
  let svc := Demo.services Demo.research_out_of_quota in
  exists s3,
    run_trading_pipeline svc Demo.start_state = (s3, Ok false) /\
    world s3 = O /\
    trace s3 = trace Demo.start_state ++
               [CallGetClock; CallGetAccount; CallGetAllPositions; CallResearch] /\
    (forall added, trace s3 = trace Demo.start_state ++ added ->
                   existsb later_stage added = false).
Proof.
  intros svc.
  eapply (@research_failure_stops_the_run Demo.CentsFloat nat svc
            Demo.start_state).
  - reflexivity.
  - reflexivity.
  - reflexivity.
Defined.

Lemma no_decisions_is_success_witness :
  let svc := Demo.services Demo.nothing_to_do in
  let self := init Demo.start_state in
  exists s',
    run_trading_pipeline svc (task_state self) = (s', Ok true) /\
    world s' = O /\
    trace s' = trace {| world := O;
                        trace := [CallGetClock; CallGetAccount;
                                  CallGetAllPositions] |}
               ++ [CallResearch; CallAnalyze; CallDecide] /\
    retry_scheduled (run_task (run_trading_pipeline svc) self) = false /\
    jobs (run_task (run_trading_pipeline svc) self) = jobs self /\
    pending_retries (run_task (run_trading_pipeline svc) self)
      = pending_retries self.
Proof.
  intros svc self.
  eapply (@no_decisions_is_success Demo.CentsFloat nat svc self
            {| world := O; trace := [CallGetClock] |}
            {| world := O;
               trace := [CallGetClock; CallGetAccount; CallGetAllPositions] |}).
  - reflexivity.
  - reflexivity.
  - reflexivity.
  - reflexivity.
  - reflexivity.
  - reflexivity.
Defined.

(** ** [calculate_next_monday_830_cdt] *)

(** Case analysis on every integer comparison in the goal. *)
Ltac compare_fields :=
  repeat match goal with
         | |- context [?x <? ?y] => destruct (Z.ltb_spec x y)
         | |- context [?x =? ?y] => destruct (Z.eqb_spec x y)
         end.

(** C10, as amended.  For a call time at least a week before
    [datetime.max] the function returns a Monday at 08:30:00.000000.
    Called on a Monday between 08:30 and 09:00 it returns 08:30 of that
    same day, which is never later than the call time, and is earlier
    than it unless the call time is exactly 08:30:00.000000, when the two
    are equal. *)
Theorem next_monday_is_a_monday_at_0830 (now : datetime) :
  valid_datetime now ->
  toordinal now + 7 <= MAXORDINAL ->
  exists next,
    calculate_next_monday_830_cdt now = Ok next /\
    weekday next = 0 /\
    hour next = 8 /\ minute next = 30 /\ second next = 0 /\
    microsecond next = 0 /\
    (weekday now = 0 -> hour now = 8 -> 30 <= minute now ->
     toordinal next = toordinal now /\
     dt_ltb now next = false /\
     (dt_ltb next now = false <->
      minute now = 30 /\ second now = 0 /\ microsecond now = 0)).
Proof.
  intros (Ho & Hh & Hm & Hs & Hu) Hmax.
  unfold calculate_next_monday_830_cdt, weekday, add_days.
  set (d := if (((7 - (toordinal now + 6) mod 7) mod 7 =? 0)
                 && (hour now >=? 9))%bool
            then 7 else (7 - (toordinal now + 6) mod 7) mod 7).
  assert (Hd : 0 <= d <= 7 /\ (toordinal now + d + 6) mod 7 = 0 /\
               ((toordinal now + 6) mod 7 = 0 -> hour now = 8 -> d = 0)).
  { subst d.
    destruct ((7 - (toordinal now + 6) mod 7) mod 7 =? 0) eqn:E0;
      [apply Z.eqb_eq in E0 | apply Z.eqb_neq in E0];
      destruct (hour now >=? 9) eqn:E9; cbn [andb];
      try (apply Z.geb_le in E9);
      try (rewrite Z.geb_leb in E9; apply Z.leb_gt in E9);
      repeat split; try intros; Z.to_euclidean_division_equations; lia. }
  destruct Hd as (Hd & Hmon & Hsame).
  replace ((toordinal now + d <? 1) || (MAXORDINAL <? toordinal now + d))%bool
    with false.
  2: { symmetry. apply orb_false_iff. split; apply Z.ltb_ge; lia. }
  eexists. split; [reflexivity |].
  unfold weekday, dt_ltb, dt_key.
  cbn [replace_time toordinal hour minute second microsecond lex_ltb].
  split; [exact Hmon |]. do 4 (split; [reflexivity |]).
  intros Hw Hh8 Hm30. rewrite (Hsame Hw Hh8), Z.add_0_r, Hh8.
  split; [reflexivity |].
  split.
  - compare_fields; cbn [andb orb]; solve [reflexivity | lia].
  - split.
    + compare_fields; cbn [andb orb]; solve [discriminate | lia].
    + intros (-> & -> & ->). compare_fields; cbn [andb orb];
        solve [reflexivity | lia].
Qed.

(** C10 as written fails at the boundary: called on a Monday at exactly
    08:30:00.000000 the function returns the call time itself, which is
    not earlier than the call time. *)
Lemma next_monday_equals_now_at_0830_sharp :
  valid_datetime Demo.monday_0830 /\
  weekday Demo.monday_0830 = 0 /\
  hour Demo.monday_0830 = 8 /\ 30 <= minute Demo.monday_0830 /\
  calculate_next_monday_830_cdt Demo.monday_0830 = Ok Demo.monday_0830 /\
  dt_ltb Demo.monday_0830 Demo.monday_0830 = false.
Proof.
  unfold valid_datetime, MAXORDINAL. cbn.
  repeat split; try lia; discriminate.
Qed.

Lemma next_monday_is_a_monday_at_0830_witness :
  exists next,
    calculate_next_monday_830_cdt Demo.monday_0845 = Ok next /\
    weekday next = 0 /\
    hour next = 8 /\ minute next = 30 /\ second next = 0 /\
    microsecond next = 0 /\
    (weekday Demo.monday_0845 = 0 -> hour Demo.monday_0845 = 8 ->
     30 <= minute Demo.monday_0845 ->
     toordinal next = toordinal Demo.monday_0845 /\
     dt_ltb Demo.monday_0845 next = false /\
     (dt_ltb next Demo.monday_0845 = false <->
      minute Demo.monday_0845 = 30 /\ second Demo.monday_0845 = 0 /\
      microsecond Demo.monday_0845 = 0)).
Proof.
  apply (@next_monday_is_a_monday_at_0830 Demo.monday_0845).
  - unfold valid_datetime, MAXORDINAL. cbn. lia.
  - unfold MAXORDINAL. cbn. lia.
Defined.

(* ================================================================= *)
(** * Further properties *)

(** ** [scheduler.py]: the job list over a whole run *)

Section SchedulerRuns.
Context {St : Type} (task_func : St -> St * result bool).

Lemma filter_remove_nth_weekly (js : list Job) i j :
  nth_error js i = Some j -> is_retry j = true ->
  filter is_weekly (remove_nth i js) = filter is_weekly js.
Proof.
  revert i. induction js as [| x js IH]; intros [| i] H Hj; cbn in *;
    try discriminate.
  - injection H as ->. unfold is_weekly at 2. rewrite Hj. reflexivity.
  - rewrite (IH i H Hj). reflexivity.
Qed.

Lemma step_weekly_jobs (self : EduardoScheduler St) e :
  filter is_weekly (jobs (step task_func self e)) =
  filter is_weekly (jobs self).
Proof.
  assert (Hrun : filter is_weekly (jobs (run_task task_func self)) =
                 filter is_weekly (jobs self)).
  { destruct (task_func (task_state self)) as [s' r] eqn:Ht.
    rewrite (run_task_shape _ _ Ht). cbn. rewrite filter_app.
    destruct (failed r && negb (retry_scheduled self))%bool; cbn;
      now rewrite app_nil_r. }
  destruct e as [i |]; cbn; [| exact Hrun].
  unfold run_job. destruct (nth_error (jobs self) i) as [j |] eqn:Hi;
    [| reflexivity].
  destruct (job_func j) eqn:Hj; [exact Hrun |].
  rewrite retry_once_eq. cbn.
  eapply filter_remove_nth_weekly; [exact Hi |].
  unfold is_retry. now rewrite Hj.
Qed.

(** X1.  Whatever the loop of [start] serves, and however the runs end,
    the weekly job registered at the start is the one job in the list
    that is not a retry: it is never cancelled and never registered a
    second time. *)
Theorem weekly_job_registered_once (es : list event) (s : St) :
  filter is_weekly
         (jobs (run_events task_func es (start_register (init s))))
  = [weekly_job].
Proof.
  assert (H : forall self : EduardoScheduler St,
             filter is_weekly (jobs (run_events task_func es self)) =
             filter is_weekly (jobs self)).
  { unfold run_events.
    induction es as [| e es' IH]; intros self; cbn [fold_left];
      [reflexivity |].
    rewrite IH. apply step_weekly_jobs. }
  rewrite H. reflexivity.
Qed.

Lemma step_task_calls (self : EduardoScheduler St) e :
  (task_calls self <= task_calls (step task_func self e)
   <= S (task_calls self))%nat.
Proof.
  assert (Hrun : task_calls (run_task task_func self) = S (task_calls self)).
  { destruct (task_func (task_state self)) as [s' r] eqn:Ht.
    now rewrite (run_task_shape _ _ Ht). }
  destruct e as [i |]; cbn [step]; unfold run_now; [| rewrite Hrun; lia].
  unfold run_job. destruct (nth_error (jobs self) i) as [j |]; [| lia].
  destruct (job_func j); [rewrite Hrun; lia |].
  rewrite retry_once_eq. cbn. lia.
Qed.

(** X2.  The task is called at most once per event: serving a list of
    events (jobs coming due, manual runs) calls it no more often than
    there are events, and never un-counts a call. *)
Theorem at_most_one_run_per_event (es : list event)
        (self : EduardoScheduler St) :
  (task_calls self <= task_calls (run_events task_func es self)
   <= task_calls self + length es)%nat.
Proof.
  revert self. induction es as [| e es' IH]; intros self; cbn; [lia |].
  specialize (IH (step task_func self e)).
  pose proof (step_task_calls self e). unfold run_events in IH. lia.
Qed.

Lemma nth_error_retry_pending (js : list Job) i j :
  nth_error js i = Some j -> is_retry j = true ->
  (1 <= length (filter is_retry js))%nat.
Proof.
  intros Hi Hj. pose proof (filter_remove_nth_retry _ _ Hi Hj). lia.
Qed.

Lemma step_in_step (self : EduardoScheduler St) e :
  in_step self ->
  (runs_task self e = true -> retry_scheduled self = true ->
   failed (snd (task_func (task_state self))) = true) ->
  in_step (step task_func self e).
Proof.
  intros Hin Hok.
  assert (Hrun : runs_task self e = true ->
                 in_step (run_task task_func self)).
  { intros He. specialize (Hok He).
    destruct (task_func (task_state self)) as [s' r] eqn:Ht.
    rewrite (run_task_shape _ _ Ht). unfold in_step, pending_retries in *.
    cbn in *. rewrite filter_app, length_app, Hin.
    destruct (retry_scheduled self); cbn.
    - rewrite (Hok eq_refl). reflexivity.
    - destruct (failed r); reflexivity. }
  destruct e as [i |]; cbn; [| now apply Hrun].
  unfold run_job. cbn in Hrun.
  destruct (nth_error (jobs self) i) as [j |] eqn:Hi; [| exact Hin].
  destruct (job_func j) eqn:Hj.
  - apply Hrun. unfold is_retry. now rewrite Hj.
  - assert (Hr : is_retry j = true) by (unfold is_retry; now rewrite Hj).
    rewrite retry_once_eq. unfold in_step, pending_retries in *. cbn.
    pose proof (filter_remove_nth_retry _ _ Hi Hr) as Hlen.
    destruct (retry_scheduled self); lia.
Qed.

Lemma run_events_in_step (es : list event) (self : EduardoScheduler St) :
  in_step self ->
  no_success_while_flagged task_func es self ->
  in_step (run_events task_func es self).
Proof.
  revert self. induction es as [| e es' IH]; intros self Hin Hd.
  - exact Hin.
  - destruct Hd as [He Hd']. cbn.
    apply IH; [| exact Hd']. now apply step_in_step.
Qed.

Lemma in_step_at_most_one (self : EduardoScheduler St) :
  in_step self -> (pending_retries self <= 1)%nat.
Proof. unfold in_step. destruct (retry_scheduled self); lia. Qed.

(** X3.  As long as no run of [run_task] succeeds while
    [retry_scheduled] is set, the flag and the job list stay in step
    through any sequence of events, so at most one retry is pending. *)
Theorem one_retry_while_no_success_on_flag (es : list event)
        (self : EduardoScheduler St) :
  in_step self ->
  no_success_while_flagged task_func es self ->
  in_step (run_events task_func es self) /\
  (pending_retries (run_events task_func es self) <= 1)%nat.
Proof.
  intros Hin Hd. pose proof (run_events_in_step es Hin Hd) as H.
  split; [exact H | now apply in_step_at_most_one].
Qed.

(** X4.  A task that fails on every call never has more than one retry
    armed, whatever the order of weekly runs, retries and manual runs. *)
Theorem always_failing_task_has_one_retry (es : list event)
        (self : EduardoScheduler St) :
  (forall s, failed (snd (task_func s)) = true) ->
  in_step self ->
  (pending_retries (run_events task_func es self) <= 1)%nat.
Proof.
  intros Hfail Hin.
  apply in_step_at_most_one, run_events_in_step; [exact Hin |].
  clear Hin. revert self.
  induction es as [| e es' IH]; intros self; cbn; [exact I |].
  split; [intros _ _; apply Hfail | apply IH].
Qed.
End SchedulerRuns.

Lemma flag_implies_pending_witness :
  let self := init [Ok false; Raise (Exc OtherError "boom")] in
  (1 <= pending_retries
          (run_events Demo.scripted_task [ManualRun; ManualRun] self))%nat.
Proof.
  intros self.
  apply (flag_implies_pending Demo.scripted_task [ManualRun; ManualRun] self).
  - cbn. discriminate.
  - reflexivity.
Defined.

Lemma one_retry_while_no_success_on_flag_witness :
  let self := start_register (init [Ok false; Ok false; Ok true]) in
  let es := [JobDue 0%nat; ManualRun; JobDue 1%nat] in
  in_step (run_events Demo.scripted_task es self) /\
  (pending_retries (run_events Demo.scripted_task es self) <= 1)%nat.
Proof.
  intros self es.
  apply (@one_retry_while_no_success_on_flag _ Demo.scripted_task es self).
  - reflexivity.
  - cbn. repeat split; intros; first [reflexivity | congruence].
Defined.

Lemma always_failing_task_has_one_retry_witness :
  let task := fun s : nat => (S s, @Ok bool false) in
  (pending_retries
     (run_events task [JobDue 0%nat; ManualRun; ManualRun; JobDue 1%nat; ManualRun]
                 (start_register (init O))) <= 1)%nat.
Proof.
  intros task.
  apply (@always_failing_task_has_one_retry _ task).
  - intros s. reflexivity.
  - reflexivity.
Defined.

(** ** [calculate_next_monday_830_cdt]: which Monday *)

(** The number of days the function adds to the call date. *)
Lemma next_monday_offset (now next : datetime) :
  calculate_next_monday_830_cdt now = Ok next ->
  exists d,
    next = {| toordinal := toordinal now + d; hour := 8; minute := 30;
              second := 0; microsecond := 0 |} /\
    1 <= toordinal now + d <= MAXORDINAL /\
    (weekday now = 0 /\ hour now < 9 /\ d = 0 \/
     weekday now = 0 /\ 9 <= hour now /\ d = 7 \/
     weekday now <> 0 /\ d = 7 - weekday now).
Proof.
  unfold calculate_next_monday_830_cdt, add_days, weekday.
  set (w := (toordinal now + 6) mod 7).
  assert (Hw : 0 <= w < 7) by (apply Z.mod_pos_bound; lia).
  set (d := if (((7 - w) mod 7 =? 0) && (hour now >=? 9))%bool
            then 7 else (7 - w) mod 7).
  destruct ((toordinal now + d <? 1) || (MAXORDINAL <? toordinal now + d))%bool
    eqn:Hrange; [discriminate |].
  apply orb_false_iff in Hrange. destruct Hrange as [H1 H2].
  apply Z.ltb_ge in H1. apply Z.ltb_ge in H2.
  intros H. injection H as <-. exists d. split; [reflexivity |].
  split; [lia |]. subst d.
  destruct (Z.eqb_spec ((7 - w) mod 7) 0) as [E0 | E0];
    destruct (hour now >=? 9) eqn:E9; cbn [andb];
    try (apply Z.geb_le in E9);
    try (rewrite Z.geb_leb in E9; apply Z.leb_gt in E9);
    Z.to_euclidean_division_equations; lia.
Qed.

(** X5.  Calling the function again at the time it returned gives the
    same time back: a Monday 08:30 is its own next Monday 08:30. *)
Theorem next_monday_is_a_fixed_point (now next : datetime) :
  calculate_next_monday_830_cdt now = Ok next ->
  calculate_next_monday_830_cdt next = Ok next.
Proof.
  intros H. pose proof (next_monday_offset _ H) as (d & -> & Hr & Hd).
  assert (Hmon : (toordinal now + d + 6) mod 7 = 0).
  { unfold weekday in Hd. Z.to_euclidean_division_equations. lia. }
  unfold calculate_next_monday_830_cdt, add_days, weekday.
  cbn [toordinal hour minute second microsecond]. rewrite Hmon.
  cbn [Z.sub Z.modulo Z.eqb Z.geb Z.compare andb].
  change ((7 - 0) mod 7) with 0. cbn [Z.eqb andb Z.geb].
  rewrite Z.add_0_r.
  replace ((toordinal now + d <? 1) || (MAXORDINAL <? toordinal now + d))%bool
    with false; [reflexivity |].
  symmetry. apply orb_false_iff. split; apply Z.ltb_ge; lia.
Qed.

(** X6.  The date returned is the first Monday on or after the call
    date, except that a call on a Monday at 09:00 or later gets the
    Monday a week on: the offset is zero exactly on a Monday before
    09:00, seven exactly on a Monday from 09:00, and otherwise no day
    strictly between the call date and the returned date is a Monday. *)
Theorem next_monday_is_the_nearest (now next : datetime) :
  calculate_next_monday_830_cdt now = Ok next ->
  0 <= toordinal next - toordinal now <= 7 /\
  (toordinal next = toordinal now <-> weekday now = 0 /\ hour now < 9) /\
  (toordinal next = toordinal now + 7 <-> weekday now = 0 /\ 9 <= hour now) /\
  (forall o, toordinal now < o < toordinal next -> (o + 6) mod 7 <> 0).
Proof.
  intros H. pose proof (next_monday_offset _ H) as (d & -> & Hr & Hd).
  cbn [toordinal]. unfold weekday in *.
  assert (Hw : 0 <= (toordinal now + 6) mod 7 < 7)
    by (apply Z.mod_pos_bound; lia).
  split; [lia |]. split; [lia |]. split; [lia |].
  intros o Ho Hmon.
  Z.to_euclidean_division_equations. lia.
Qed.

Lemma lex_ltb_head (x y : Z) (a b : list Z) :
  x < y -> lex_ltb (x :: a) (y :: b) = true.
Proof. intros H. cbn. apply orb_true_iff. left. now apply Z.ltb_lt. Qed.

(** X7.  Outside the half hour of a Monday from 08:30 to 09:00 the time
    returned lies strictly after the call time. *)
Theorem next_monday_is_in_the_future (now next : datetime) :
  valid_datetime now ->
  calculate_next_monday_830_cdt now = Ok next ->
  weekday now <> 0 \/ 9 <= hour now \/ hour now < 8 \/
    (hour now = 8 /\ minute now < 30) ->
  dt_ltb now next = true.
Proof.
  intros (Ho & Hh & Hm & Hs & Hu) H Hout.
  pose proof (next_monday_offset _ H) as (d & -> & Hr & Hd).
  unfold dt_ltb, dt_key. cbn [toordinal hour minute second microsecond].
  assert (Hw : 0 <= weekday now < 7)
    by (unfold weekday; apply Z.mod_pos_bound; lia).
  destruct (Z.eq_dec d 0) as [-> | Hd0].
  - rewrite Z.add_0_r. cbn [lex_ltb].
    rewrite Z.ltb_irrefl, Z.eqb_refl. cbn [orb andb].
    compare_fields; cbn [andb orb]; solve [reflexivity | lia].
  - apply lex_ltb_head. lia.
Qed.

(** X8.  The function raises [OverflowError] exactly when the Monday it
    aims at lies beyond [datetime.max]: for a call after the last Monday
    of the year 9999, or on that Monday from 09:00. *)
Theorem next_monday_overflows_at_the_end_of_time (now : datetime) :
  valid_datetime now ->
  ((exists e, calculate_next_monday_830_cdt now = Raise e /\
              exc_class e = OverflowError) <->
   (MAXORDINAL - 4 < toordinal now \/
    (toordinal now = MAXORDINAL - 4 /\ 9 <= hour now))).
Proof.
  intros (Ho & Hh & Hm & Hs & Hu).
  unfold calculate_next_monday_830_cdt, add_days, weekday.
  set (w := (toordinal now + 6) mod 7).
  assert (Hw : 0 <= w < 7) by (apply Z.mod_pos_bound; lia).
  set (d := if (((7 - w) mod 7 =? 0) && (hour now >=? 9))%bool
            then 7 else (7 - w) mod 7).
  assert (Hd : (w = 0 /\ hour now < 9 /\ d = 0) \/
               (w = 0 /\ 9 <= hour now /\ d = 7) \/
               (w <> 0 /\ d = 7 - w)).
  { subst d.
    destruct (Z.eqb_spec ((7 - w) mod 7) 0) as [E0 | E0];
      destruct (hour now >=? 9) eqn:E9; cbn [andb];
      try (apply Z.geb_le in E9);
      try (rewrite Z.geb_leb in E9; apply Z.leb_gt in E9);
      Z.to_euclidean_division_equations; lia. }
  clearbody d. unfold MAXORDINAL in *.
  destruct ((toordinal now + d <? 1) || (3652059 <? toordinal now + d))%bool
    eqn:Hrange.
  - apply orb_true_iff in Hrange.
    assert (Hover : 3652059 < toordinal now + d).
    { destruct Hrange as [H1 | H1];
        [apply Z.ltb_lt in H1; lia | now apply Z.ltb_lt in H1]. }
    split.
    + intros _. subst w. Z.to_euclidean_division_equations. lia.
    + intros _. eexists. split; reflexivity.
  - apply orb_false_iff in Hrange. destruct Hrange as [_ H2].
    apply Z.ltb_ge in H2. split.
    + intros (e & He & _). discriminate.
    + intros Hlate. exfalso. subst w.
      Z.to_euclidean_division_equations. lia.
Qed.

Lemma next_monday_is_a_fixed_point_witness :
  calculate_next_monday_830_cdt Demo.monday_0830 = Ok Demo.monday_0830.
Proof.
  apply (@next_monday_is_a_fixed_point Demo.monday_0845). reflexivity.
Defined.

Lemma next_monday_is_the_nearest_witness :
  let now := {| toordinal := 739014; hour := 17; minute := 5; second := 0;
                microsecond := 0 |} in
  let next := {| toordinal := 739019; hour := 8; minute := 30; second := 0;
                 microsecond := 0 |} in
  0 <= toordinal next - toordinal now <= 7 /\
  (toordinal next = toordinal now <-> weekday now = 0 /\ hour now < 9) /\
  (toordinal next = toordinal now + 7 <-> weekday now = 0 /\ 9 <= hour now) /\
  (forall o, toordinal now < o < toordinal next -> (o + 6) mod 7 <> 0).
Proof.
  intros now next.
  apply (@next_monday_is_the_nearest now next). reflexivity.
Defined.

Lemma next_monday_is_in_the_future_witness :
  let now := {| toordinal := 739012; hour := 9; minute := 0; second := 0;
                microsecond := 0 |} in
  let next := {| toordinal := 739019; hour := 8; minute := 30; second := 0;
                 microsecond := 0 |} in
  dt_ltb now next = true.
Proof.
  intros now next.
  apply (@next_monday_is_in_the_future now next).
  - unfold valid_datetime, MAXORDINAL. cbn. lia.
  - reflexivity.
  - right. left. cbn. lia.
Defined.

Lemma next_monday_overflows_at_the_end_of_time_witness :
  let now := {| toordinal := 3652057; hour := 12; minute := 0; second := 0;
                microsecond := 0 |} in
  (exists e, calculate_next_monday_830_cdt now = Raise e /\
             exc_class e = OverflowError) <->
  (MAXORDINAL - 4 < toordinal now \/
   (toordinal now = MAXORDINAL - 4 /\ 9 <= hour now)).
Proof.
  intros now.
  apply (@next_monday_overflows_at_the_end_of_time now).
  unfold valid_datetime, MAXORDINAL. cbn. lia.
Defined.

(** ** [main.py]: what a run calls, and when it gives up *)

Section PipelineRuns.
Context {PF : PyFloat} {W : Type} (svc : Services W).

Lemma orders_of_are_orders (ds : list InvestmentDecision) :
  forallb is_order (orders_of ds) = true.
Proof.
  unfold orders_of. induction (filter is_buy_order ds) as [| d l IH];
    [reflexivity |].
  cbn [flat_map]. rewrite forallb_app, IH. unfold order_call.
  destruct (market_order d); reflexivity.
Qed.

Lemma check_market_open_trace s s1 r :
  check_market_open svc s = (s1, r) ->
  exists n, (n <= 1)%nat /\
            trace s1 = trace s ++ firstn n [CallGetClock] /\
            (forall b, r = Ok b -> n = 1%nat).
Proof.
  unfold check_market_open, bind. intros H.
  destruct (get_alpaca_client_cases svc s)
    as [[_ [c Hc]] | [_ [e [Hc _]]]]; rewrite Hc in H.
  - rewrite call_eq in H. injection H as <- <-.
    exists 1%nat. cbn. auto.
  - injection H as <- <-. exists 0%nat. cbn. rewrite app_nil_r.
    repeat split; [lia | discriminate].
Qed.

Lemma get_account_info_trace s1 s2 r :
  get_account_info svc s1 = (s2, r) ->
  exists m, (m <= 2)%nat /\
            trace s2 = trace s1 ++ firstn m [CallGetAccount; CallGetAllPositions] /\
            (forall a, r = Ok a -> m = 2%nat).
Proof.
  unfold get_account_info, bind, lift, ret. intros H.
  destruct (get_alpaca_client_cases svc s1)
    as [[_ [c Hc]] | [_ [e [Hc _]]]]; rewrite Hc in H.
  2: { injection H as <- <-. exists 0%nat. cbn. rewrite app_nil_r.
       repeat split; [lia | discriminate]. }
  rewrite call_eq in H.
  destruct (snd (get_account svc c (world s1))).
  2: { injection H as <- <-. exists 1%nat. cbn.
       repeat split; [lia | discriminate]. }
  rewrite call_eq in H. cbn [fst snd world trace] in H.
  assert (Hboth : forall (x : pstate Call W) (y : result AccountInfo),
             (x, y) = (s2, r) ->
             trace x = (trace s1 ++ [CallGetAccount]) ++ [CallGetAllPositions] ->
             exists m, (m <= 2)%nat /\
               trace s2 = trace s1 ++ firstn m [CallGetAccount; CallGetAllPositions] /\
               (forall a0, r = Ok a0 -> m = 2%nat)).
  { intros x y E Hx. injection E as <- <-. exists 2%nat. cbn.
    rewrite Hx, <- app_assoc. auto. }
  destruct (snd (get_all_positions svc c _));
    [| exact (Hboth _ _ H eq_refl)].
  destruct (positions_loop _ _); [| exact (Hboth _ _ H eq_refl)].
  destruct (float_of (account_cash _)); [| exact (Hboth _ _ H eq_refl)].
  destruct (float_of (account_portfolio_value _));
    [| exact (Hboth _ _ H eq_refl)].
  destruct (float_of (account_buying_power _));
    exact (Hboth _ _ H eq_refl).
Qed.

(** Missing credentials: the run gives up at once. *)
Lemma pipeline_without_credentials s :
  credentials_set svc = false ->
  run_trading_pipeline svc s = (s, Ok false).
Proof.
  intros Hcred.
  unfold run_trading_pipeline, try_except, pipeline_body, check_market_open,
    bind.
  destruct (get_alpaca_client_cases svc s)
    as [[Hc _] | [_ [e [Hc _]]]]; [congruence |].
  rewrite Hc. reflexivity.
Qed.
Lemma pipeline_body_shape s :
  exists s' r n orders,
    pipeline_body svc s = (s', r) /\
    trace s' = trace s ++ firstn n stage_sequence ++ orders /\
    forallb is_order orders = true /\
    (orders <> [] -> n = 6%nat) /\
    (r = Ok true -> n = 6%nat).
Proof.
  unfold pipeline_body, bind, try_except_class, ret.
  destruct (check_market_open svc s) as [s1 r1] eqn:Hopen.
  destruct (check_market_open_trace _ Hopen) as (n1 & Hn1le & Ht1 & Hn1).
  destruct r1 as [[|] | e]; cbn [negb].
  3: { exists s1, (Raise e), n1, []. rewrite app_nil_r.
       destruct n1 as [| [|]]; try lia;
         repeat split; try assumption; try congruence. }
  2: { exists s1, (Ok false), 1%nat, [].
       rewrite (Hn1 false eq_refl) in Ht1.
       repeat split; try assumption; try congruence. }
  rewrite (Hn1 true eq_refl) in Ht1. cbn [firstn] in Ht1.
  destruct (get_account_info svc s1) as [s2 r2] eqn:Hacct.
  destruct (get_account_info_trace _ Hacct) as (m & Hmle & Ht2 & Hm).
  destruct r2 as [acct | e].
  2: { exists s2, (Raise e), (S m), []. rewrite app_nil_r, Ht2, Ht1.
       destruct m as [| [| [|]]]; try lia; cbn; rewrite <- app_assoc;
         repeat split; try congruence. }
  rewrite (Hm acct eq_refl) in Ht2. cbn [firstn] in Ht2.
  assert (Ht3 : trace s2 ++ [CallResearch] =
                trace s ++ firstn 4 stage_sequence).
  { rewrite Ht2, Ht1. cbn. now rewrite <- !app_assoc. }
  rewrite call_eq.
  destruct (snd (research_companies svc (world s2))) as [gpt | e].
  2: { destruct (exn_class_eqb (exc_class e) RateLimitError);
         do 2 eexists; exists 4%nat, []; (split; [reflexivity |]);
         cbn [trace]; rewrite Ht3, app_nil_r;
         repeat split; congruence. }
  cbn [fst snd]. rewrite call_eq. cbn [world trace].
  assert (Ht4 : (trace s2 ++ [CallResearch]) ++ [CallAnalyze] =
                trace s ++ firstn 5 stage_sequence).
  { rewrite Ht3. cbn. now rewrite <- !app_assoc. }
  destruct (snd (analyze_fundamentals svc (picks gpt) _)) as [claude | e].
  2: { do 2 eexists; exists 5%nat, []; (split; [reflexivity |]);
         cbn [trace]; rewrite Ht4, app_nil_r;
         repeat split; congruence. }
  cbn [fst snd]. rewrite call_eq. cbn [world trace].
  assert (Ht5 : ((trace s2 ++ [CallResearch]) ++ [CallAnalyze]) ++ [CallDecide]
                = trace s ++ firstn 6 stage_sequence).
  { rewrite Ht4. cbn. now rewrite <- !app_assoc. }
  destruct (snd (make_investment_decision svc _ _ _ _ _)) as [grok | e].
  2: { do 2 eexists; exists 6%nat, []; (split; [reflexivity |]);
         cbn [trace]; rewrite Ht5, app_nil_r;
         repeat split; congruence. }
  cbn [fst snd].
  destruct (execute_trades svc (decisions grok) _) as [s6 [results | e]]
    eqn:Hex.
  - apply execute_trades_ok in Hex. destruct Hex as [Ht6 _].
    cbn [trace] in Ht6.
    exists s6, (Ok (check_results results)), 6%nat,
      (orders_of (decisions grok)).
    split; [reflexivity |]. rewrite Ht6, Ht5, <- app_assoc.
    repeat split. apply orders_of_are_orders.
  - apply execute_trades_raise in Hex. destruct Hex as (-> & _).
    exists {| world := fst (make_investment_decision svc (picks gpt)
                              (fundamentals claude) (cash acct)
                              (positions acct)
                              (fst (analyze_fundamentals svc (picks gpt)
                                      (fst (research_companies svc (world s2))))));
              trace := ((trace s2 ++ [CallResearch]) ++ [CallAnalyze])
                       ++ [CallDecide] |},
      (Raise e), 6%nat, [].
    split; [reflexivity |]. cbn [trace]. rewrite Ht5, app_nil_r.
    repeat split; congruence.
Qed.

Lemma pipeline_trace_shape s :
  exists s' b n orders,
    run_trading_pipeline svc s = (s', Ok b) /\
    trace s' = trace s ++ firstn n stage_sequence ++ orders /\
    forallb is_order orders = true /\
    (orders <> [] -> n = 6%nat) /\
    (b = true -> n = 6%nat).
Proof.
  destruct (pipeline_body_shape s)
    as (s' & r & n & orders & Hb & Ht & Ho & Hn & Hr).
  unfold run_trading_pipeline, try_except. rewrite Hb.
  destruct r as [b | e].
  - exists s', b, n, orders. repeat split; try assumption.
    intros ->. now apply Hr.
  - exists s', false, n, orders. repeat split; try assumption.
    discriminate.
Qed.
End PipelineRuns.

Section PipelineOutcomes.
Context {PF : PyFloat} {W : Type} (svc : Services W).

(** Up to the analysis call the run is the same whatever follows. *)
Lemma pipeline_body_after_research s s1 s2 acct w3 gpt :
  check_market_open svc s = (s1, Ok true) ->
  get_account_info svc s1 = (s2, Ok acct) ->
  research_companies svc (world s2) = (w3, Ok gpt) ->
  pipeline_body svc s =
  bind (call CallAnalyze (analyze_fundamentals svc (picks gpt)))
       (fun claude_response =>
          bind (call CallDecide
                  (make_investment_decision svc (picks gpt)
                     (fundamentals claude_response) (cash acct)
                     (positions acct)))
               (fun grok_response =>
                  bind (execute_trades svc (decisions grok_response))
                       (fun trade_results =>
                          ret (check_results trade_results))))
       {| world := w3; trace := trace s2 ++ [CallResearch] |}.
Proof.
  intros Hopen Hacct Hres. unfold pipeline_body.
  rewrite (bind_ok _ _ _ Hopen). cbn [negb].
  rewrite (bind_ok _ _ _ Hacct).
  unfold bind at 1. unfold try_except_class, bind at 1.
  rewrite call_eq, Hres. reflexivity.
Qed.

(** X10.  When the analysis stage raises, the run returns False; the
    decision stage is not asked and no order is submitted. *)
Theorem analysis_failure_stops_the_run s s1 s2 acct w3 gpt w4 e :
  check_market_open svc s = (s1, Ok true) ->
  get_account_info svc s1 = (s2, Ok acct) ->
  research_companies svc (world s2) = (w3, Ok gpt) ->
  analyze_fundamentals svc (picks gpt) w3 = (w4, Raise e) ->
  run_trading_pipeline svc s =
    ({| world := w4; trace := trace s2 ++ [CallResearch; CallAnalyze] |},
     Ok false).
Proof.
  intros Hopen Hacct Hres Han.
  unfold run_trading_pipeline, try_except.
  rewrite (pipeline_body_after_research _ Hopen Hacct Hres).
  unfold bind at 1. rewrite call_eq. cbn [world trace]. rewrite Han.
  cbn [fst snd]. unfold ret. now rewrite <- app_assoc.
Qed.

(** X11.  When the decision stage raises, the run returns False and no
    order is submitted. *)
Theorem decision_failure_stops_the_run
        s s1 s2 acct w3 gpt w4 claude w5 e :
  check_market_open svc s = (s1, Ok true) ->
  get_account_info svc s1 = (s2, Ok acct) ->
  research_companies svc (world s2) = (w3, Ok gpt) ->
  analyze_fundamentals svc (picks gpt) w3 = (w4, Ok claude) ->
  make_investment_decision svc (picks gpt) (fundamentals claude)
                           (cash acct) (positions acct) w4 = (w5, Raise e) ->
  run_trading_pipeline svc s =
    ({| world := w5;
        trace := trace s2 ++ [CallResearch; CallAnalyze; CallDecide] |},
     Ok false).
Proof.
  intros Hopen Hacct Hres Han Hdec.
  unfold run_trading_pipeline, try_except.
  rewrite (pipeline_body_after_research _ Hopen Hacct Hres).
  unfold bind at 1. rewrite call_eq. cbn [world trace]. rewrite Han.
  cbn [fst snd]. unfold bind at 1. rewrite call_eq. cbn [world trace].
  rewrite Hdec. cbn [fst snd]. unfold ret. now rewrite <- !app_assoc.
Qed.

Lemma stage_trace_flat (t : list Call) :
  ((t ++ [CallResearch]) ++ [CallAnalyze]) ++ [CallDecide] =
  t ++ [CallResearch; CallAnalyze; CallDecide].
Proof. now rewrite <- !app_assoc. Qed.

(** How the run ends, step by step. *)
Lemma pipeline_run_ends s :
  exists s' b, run_trading_pipeline svc s = (s', Ok b) /\
               run_ends svc s s' b.
Proof.
  unfold run_trading_pipeline, try_except.
  destruct (check_market_open svc s) as [s1 r1] eqn:Hopen.
  assert (Hclosed : r1 <> Ok true ->
            exists s' b,
              (let (s'0, r) := pipeline_body svc s in
               match r with
               | Ok a => (s'0, Ok a)
               | Raise e => ret false s'0
               end) = (s', Ok b) /\ run_ends svc s s' b).
  { intros Hne. exists s1, false. split; [| now apply (ends_at_clock _ _ Hopen)].
    unfold pipeline_body, bind. rewrite Hopen.
    destruct r1 as [[|] | e]; [congruence | reflexivity | reflexivity]. }
  destruct r1 as [[|] | e]; [| apply Hclosed; discriminate
                            | apply Hclosed; discriminate].
  clear Hclosed.
  destruct (get_account_info svc s1) as [s2 [acct | e]] eqn:Hacct.
  2: { exists s2, false. split; [| exact (ends_at_account _ _ Hopen Hacct)].
       unfold pipeline_body. rewrite (bind_ok _ _ _ Hopen). cbn [negb].
       rewrite (bind_raise _ _ _ Hacct). reflexivity. }
  destruct (research_companies svc (world s2)) as [w3 [gpt | e]] eqn:Hres.
  2: { eexists _, false.
       split; [| exact (ends_at_research _ _ Hopen Hacct Hres)].
       unfold pipeline_body. rewrite (bind_ok _ _ _ Hopen). cbn [negb].
       rewrite (bind_ok _ _ _ Hacct).
       unfold bind, try_except_class. rewrite call_eq, Hres. cbn [fst snd].
       destruct (exn_class_eqb (exc_class e) RateLimitError); reflexivity. }
  rewrite (pipeline_body_after_research _ Hopen Hacct Hres).
  unfold bind at 1. rewrite call_eq. cbn [world trace].
  destruct (analyze_fundamentals svc (picks gpt) w3) as [w4 [claude | e]]
    eqn:Han; cbn [fst snd].
  2: { eexists _, false.
       split; [| exact (ends_at_analysis _ _ Hopen Hacct Hres Han)].
       unfold ret. now rewrite <- app_assoc. }
  unfold bind at 1. rewrite call_eq. cbn [world trace].
  destruct (make_investment_decision svc (picks gpt) (fundamentals claude)
              (cash acct) (positions acct) w4) as [w5 [grok | e]] eqn:Hdec;
    cbn [fst snd].
  2: { eexists _, false.
       split; [| exact (ends_at_decision _ _ Hopen Hacct Hres Han Hdec)].
       unfold ret. now rewrite stage_trace_flat. }
  rewrite stage_trace_flat.
  pose proof (check_market_open_inv _ _ Hopen) as [Hcred _].
  destruct (execute_trades_total svc (decisions grok)
              {| world := w5;
                 trace := trace s2 ++ [CallResearch; CallAnalyze; CallDecide] |}
              Hcred) as (s6 & results & Hex).
  exists s6, (forallb success results).
  split; [| exact (ends_after_execution _ _ Hopen Hacct Hres Han Hdec Hex)].
  unfold bind. rewrite Hex. unfold ret. now rewrite check_results_forallb.
Qed.

(** X9.  The pipeline never raises: every run ends by returning a bool.
    It goes through its steps in order (clock, account, research,
    analysis, decision, execution) and ends at the first step that does
    not answer, or at a closed market, in the state that step left and
    with False; later steps are not called.  Only when every step
    answered does it execute the decisions, and then it returns whether
    every result of the execution is a success.  Its remote calls are a
    prefix of the six stage calls followed by orders; there are orders,
    and the result is True, only when all six calls were made. *)
Theorem pipeline_calls_in_stage_order s :
  exists s' b,
    run_trading_pipeline svc s = (s', Ok b) /\
    run_ends svc s s' b /\
    exists n orders,
      trace s' = trace s ++ firstn n stage_sequence ++ orders /\
      forallb is_order orders = true /\
      (orders <> [] -> n = 6%nat) /\
      (b = true -> n = 6%nat).
Proof.
  destruct (pipeline_run_ends s) as (s' & b & Hrun & Hends).
  destruct (pipeline_trace_shape svc s)
    as (s'' & b' & n & orders & Hrun' & Hshape).
  rewrite Hrun in Hrun'. injection Hrun' as <- <-.
  exists s', b. split; [exact Hrun |]. split; [exact Hends |].
  exists n, orders. exact Hshape.
Qed.

(** X12.  When every stage answers, the decisions are executed from the
    state the decision stage left; the run ends in the state the
    execution left, having submitted the order of every buy decision
    whose request could be built, and returns True exactly when none of
    the results the execution returned is a failure. *)
Theorem completed_run_reports_failed_orders
        s s1 s2 acct w3 gpt w4 claude w5 grok :
  check_market_open svc s = (s1, Ok true) ->
  get_account_info svc s1 = (s2, Ok acct) ->
  research_companies svc (world s2) = (w3, Ok gpt) ->
  analyze_fundamentals svc (picks gpt) w3 = (w4, Ok claude) ->
  make_investment_decision svc (picks gpt) (fundamentals claude)
                           (cash acct) (positions acct) w4 = (w5, Ok grok) ->
  exists s6 results,
    execute_trades svc (decisions grok)
      {| world := w5;
         trace := trace s2 ++ [CallResearch; CallAnalyze; CallDecide] |}
      = (s6, Ok results) /\
    run_trading_pipeline svc s = (s6, Ok (forallb success results)) /\
    (forallb success results = true <-> failures results = 0%nat) /\
    Forall2 result_for (filter is_buy_order (decisions grok)) results /\
    trace s6 = trace s2 ++ [CallResearch; CallAnalyze; CallDecide]
                        ++ orders_of (decisions grok).
Proof.
  intros Hopen Hacct Hres Han Hdec.
  pose proof (check_market_open_inv _ _ Hopen) as [Hcred _].
  destruct (execute_trades_total svc (decisions grok)
              {| world := w5;
                 trace := trace s2 ++ [CallResearch; CallAnalyze; CallDecide] |}
              Hcred) as (s6 & results & Hex).
  exists s6, results. split; [exact Hex |].
  split.
  - rewrite <- check_results_forallb.
    apply (run_trading_pipeline_completed _ _ Hopen Hacct Hres Han Hdec).
    now rewrite stage_trace_flat.
  - apply execute_trades_ok in Hex. destruct Hex as [Ht Hrs].
    split; [symmetry; apply failures_zero |].
    split; [exact Hrs |].
    rewrite Ht. cbn [trace]. now rewrite <- !app_assoc.
Qed.

(** X13.  [--dry-run] is parsed and then ignored: started with
    [--run-now], [main] runs the pipeline once, and when every stage
    answers the order of every buy decision whose request can be built
    is submitted, whether [--dry-run] was given or not. *)
Theorem main_submits_orders_despite_dry_run
        (args : Namespace) es s s1 s2 acct w3 gpt w4 claude w5 grok :
  args_run_now args = true ->
  check_market_open svc s = (s1, Ok true) ->
  get_account_info svc s1 = (s2, Ok acct) ->
  research_companies svc (world s2) = (w3, Ok gpt) ->
  analyze_fundamentals svc (picks gpt) w3 = (w4, Ok claude) ->
  make_investment_decision svc (picks gpt) (fundamentals claude)
                           (cash acct) (positions acct) w4 = (w5, Ok grok) ->
  task_calls (main svc args es s) = 1%nat /\
  trace (task_state (main svc args es s)) =
    trace s2 ++ [CallResearch; CallAnalyze; CallDecide]
            ++ orders_of (decisions grok).
Proof.
  intros Hnow Hopen Hacct Hres Han Hdec.
  pose proof (check_market_open_inv _ _ Hopen) as [Hcred _].
  destruct (execute_trades_total svc (decisions grok)
              {| world := w5;
                 trace := ((trace s2 ++ [CallResearch]) ++ [CallAnalyze])
                          ++ [CallDecide] |} Hcred)
    as (s6 & results & Hex).
  pose proof (run_trading_pipeline_completed _ _ Hopen Hacct Hres Han Hdec Hex)
    as Hrun.
  apply execute_trades_ok in Hex. destruct Hex as [Ht _].
  unfold main. rewrite Hnow. unfold run_now.
  assert (Hrun' : run_trading_pipeline svc (task_state (init s))
                  = (s6, Ok (check_results results))) by exact Hrun.
  rewrite (run_task_shape _ _ Hrun'). cbn. split; [reflexivity |].
  rewrite Ht. cbn [trace]. now rewrite <- !app_assoc.
Qed.

(** X14.  Without both Alpaca credentials in the environment the run
    returns False at once: it makes no remote call and leaves the world
    as it was. *)
Theorem missing_credentials_stop_the_run s :
  credentials_set svc = false ->
  run_trading_pipeline svc s = (s, Ok false) /\
  (forall ds, exists e, execute_trades svc ds s = (s, Raise e) /\
                        exc_class e = ValueError).
Proof.
  intros Hcred. split; [now apply pipeline_without_credentials |].
  intros ds. unfold execute_trades, bind.
  destruct (get_alpaca_client_cases svc s)
    as [[Hc _] | [_ [e [Hc He]]]]; [congruence |].
  rewrite Hc. now exists e.
Qed.
End PipelineOutcomes.

Lemma analysis_failure_stops_the_run_witness :
  let svc := Fixtures.with_stages Demo.nothing_to_do
               (Raise (Exc OtherError "Expecting value"))
               (Raise (Exc OtherError "unused")) in
  let s2 := {| world := O;
               trace := [CallGetClock; CallGetAccount; CallGetAllPositions] |} in
  run_trading_pipeline svc Demo.start_state =
    ({| world := O; trace := trace s2 ++ [CallResearch; CallAnalyze] |},
     Ok false).
Proof.
  intros svc s2.
  eapply (@analysis_failure_stops_the_run Demo.CentsFloat nat svc
            Demo.start_state {| world := O; trace := [CallGetClock] |} s2).
  - reflexivity.
  - reflexivity.
  - reflexivity.
  - reflexivity.
Defined.

Lemma decision_failure_stops_the_run_witness :
  let svc := Fixtures.with_stages Demo.nothing_to_do
               (Ok {| fundamentals := [Fixtures.fundamental "AAA" 20];
                      claude_timestamp := "t" |})
               (Raise (Exc OtherError "KeyError: 'decisions'")) in
  let s2 := {| world := O;
               trace := [CallGetClock; CallGetAccount; CallGetAllPositions] |} in
  run_trading_pipeline svc Demo.start_state =
    ({| world := O;
        trace := trace s2 ++ [CallResearch; CallAnalyze; CallDecide] |},
     Ok false).
Proof.
  intros svc s2.
  eapply (@decision_failure_stops_the_run Demo.CentsFloat nat svc
            Demo.start_state {| world := O; trace := [CallGetClock] |} s2).
  - reflexivity.
  - reflexivity.
  - reflexivity.
  - reflexivity.
  - reflexivity.
Defined.

Lemma completed_run_reports_failed_orders_witness :
  let svc := Demo.services Demo.one_rejected in
  let s2 := {| world := O;
               trace := [CallGetClock; CallGetAccount; CallGetAllPositions] |} in
  exists s6 results,
    execute_trades svc Demo.mixed_decisions
      {| world := O;
         trace := trace s2 ++ [CallResearch; CallAnalyze; CallDecide] |}
      = (s6, Ok results) /\
    run_trading_pipeline svc Demo.start_state
      = (s6, Ok (forallb success results)) /\
    (forallb success results = true <-> failures results = 0%nat) /\
    Forall2 result_for (filter is_buy_order Demo.mixed_decisions) results /\
    trace s6 = trace s2 ++ [CallResearch; CallAnalyze; CallDecide]
                        ++ orders_of Demo.mixed_decisions.
Proof.
  intros svc s2.
  eapply (@completed_run_reports_failed_orders Demo.CentsFloat nat svc
            Demo.start_state {| world := O; trace := [CallGetClock] |} s2
            _ _ _ _ _ O
            {| decisions := Demo.mixed_decisions;
               portfolio_risk_analysis := "";
               grok_available_capital := 1000000 |}).
  - reflexivity.
  - reflexivity.
  - reflexivity.
  - reflexivity.
  - reflexivity.
Defined.

Lemma main_submits_orders_despite_dry_run_witness :
  let svc := Demo.services Demo.one_rejected in
  let args := {| args_run_now := true; args_dry_run := true |} in
  let s2 := {| world := O;
               trace := [CallGetClock; CallGetAccount; CallGetAllPositions] |} in
  task_calls (main svc args [] Demo.start_state) = 1%nat /\
  trace (task_state (main svc args [] Demo.start_state)) =
    trace s2 ++ [CallResearch; CallAnalyze; CallDecide]
            ++ orders_of Demo.mixed_decisions.
Proof.
  intros svc args s2.
  eapply (@main_submits_orders_despite_dry_run Demo.CentsFloat nat svc args []
            Demo.start_state {| world := O; trace := [CallGetClock] |} s2
            _ _ _ _ _ _
            {| decisions := Demo.mixed_decisions;
               portfolio_risk_analysis := "";
               grok_available_capital := 1000000 |}).
  - reflexivity.
  - reflexivity.
  - reflexivity.
  - reflexivity.
  - reflexivity.
  - reflexivity.
Defined.

Lemma missing_credentials_stop_the_run_witness :
  let svc := Fixtures.without_credentials Demo.one_rejected in
  run_trading_pipeline svc Demo.start_state = (Demo.start_state, Ok false) /\
  (forall ds, exists e,
      execute_trades svc ds Demo.start_state = (Demo.start_state, Raise e) /\
      exc_class e = ValueError).
Proof.
  intros svc.
  apply (@missing_credentials_stop_the_run Demo.CentsFloat nat svc
           Demo.start_state).
  reflexivity.
Defined.

(** ** [alpaca_client.py]: the results of [execute_trades] *)

Section ExecutionResults.
Context {PF : PyFloat} {W : Type} (svc : Services W).

(** One guarded attempt: where it ends and what it records do not depend
    on the results collected so far. *)
Lemma attempt_shape client (d : InvestmentDecision) s :
  exists s' r,
    attempt_of d r /\
    trace s' = trace s ++ order_call d /\
    forall results,
      try_except (place_order svc client d results)
                 (record_failure svc d results) s = (s', Ok (results ++ [r])).
Proof.
  unfold try_except, place_order, record_failure, bind, lift, order_call.
  destruct (market_order d) as [req | e0].
  2: { rewrite observe_eq. do 2 eexists.
       split; [| split; [| intros results; reflexivity]];
         [right; do 2 eexists; reflexivity | cbn; now rewrite app_nil_r]. }
  rewrite call_eq.
  destruct (snd (submit_order svc client req (world s)))
    as [order | e]; cbn [fst snd].
  - destruct (truthy (filled_avg_price order)).
    + destruct (float_of (filled_avg_price order)) as [p | e];
        rewrite observe_eq; do 2 eexists;
        (split; [| split; [| intros results; reflexivity]]);
        [left; do 3 eexists; reflexivity | reflexivity
        | right; do 2 eexists; reflexivity | reflexivity].
    + unfold ret. rewrite observe_eq. do 2 eexists.
      split; [| split; [| intros results; reflexivity]];
        [left; do 3 eexists; reflexivity | reflexivity].
  - rewrite observe_eq. do 2 eexists.
    split; [| split; [| intros results; reflexivity]];
      [right; do 2 eexists; reflexivity | reflexivity].
Qed.

(** The loop with results already collected is the loop from the empty
    list with those results in front. *)
Lemma loop_acc client (ds : list InvestmentDecision) :
  forall acc s,
    execute_trades_loop svc client ds acc s =
    match execute_trades_loop svc client ds [] s with
    | (s', Ok rs) => (s', Ok (acc ++ rs))
    | (s', Raise e) => (s', Raise e)
    end.
Proof.
  induction ds as [| d rest IH]; intros acc s.
  - cbn. unfold ret. now rewrite app_nil_r.
  - destruct (is_buy_order d) eqn:Hd.
    + rewrite !loop_attempt by assumption.
      destruct (attempt_shape client d s) as (s1 & r & _ & _ & Hstep).
      rewrite (bind_ok _ _ _ (Hstep acc)), (bind_ok _ _ _ (Hstep [])).
      rewrite (IH (acc ++ [r])), (IH ([] ++ [r])).
      destruct (execute_trades_loop svc client rest [] s1) as [s2 [rs | e]];
        [| reflexivity].
      cbn. now rewrite <- app_assoc.
    + rewrite !loop_skip by assumption. apply IH.
Qed.

Lemma loop_attempts client (ds : list InvestmentDecision) :
  forall s s' rs,
    execute_trades_loop svc client ds [] s = (s', Ok rs) ->
    Forall2 attempt_of (filter is_buy_order ds) rs.
Proof.
  induction ds as [| d rest IH]; intros s s' rs H.
  - cbn in H. injection H as _ <-. constructor.
  - cbn [filter]. destruct (is_buy_order d) eqn:Hd.
    + rewrite loop_attempt in H by assumption.
      destruct (attempt_shape client d s) as (s1 & r & Hr & _ & Hstep).
      rewrite (bind_ok _ _ _ (Hstep [])), loop_acc in H.
      destruct (execute_trades_loop svc client rest [] s1) as [s2 [rs' | e]]
        eqn:Hrest; [| discriminate].
      injection H as _ <-. cbn. constructor; [exact Hr |].
      exact (IH _ _ _ Hrest).
    + rewrite loop_skip in H by assumption. exact (IH _ _ _ H).
Qed.

Lemma attempt_consistent (d : InvestmentDecision) r :
  is_buy_order d = true -> attempt_of d r -> consistent_result r.
Proof.
  intros Hd Hr. unfold is_buy_order in Hd. apply andb_true_iff in Hd.
  destruct Hd as [_ Hpos]. apply Z.ltb_lt in Hpos.
  destruct Hr as [(order & p & ts & ->) | (e & ts & ->)];
    unfold consistent_result; cbn; repeat split;
    try assumption; try discriminate; try reflexivity.
Qed.

(** X15.  Every result [execute_trades] returns is consistent with its
    [success] flag: it is a BUY of a positive number of shares; a success
    carries an order id, no error message, and a total of price times
    shares; a failure carries an error message, no order id, and price
    and total 0.0. *)
Theorem execute_trades_results_are_consistent
        (ds : list InvestmentDecision) s s' results :
  execute_trades svc ds s = (s', Ok results) ->
  Forall consistent_result results.
Proof.
  unfold execute_trades. intros H.
  apply bind_inv_ok in H. destruct H as (s1 & client & Hc & Hloop).
  destruct (get_alpaca_client_cases svc s) as [[_ [c Hc']] | [_ [e [Hc' _]]]];
    rewrite Hc' in Hc; [| discriminate].
  injection Hc as Hs Hcl. subst s1 client.
  apply loop_attempts in Hloop.
  assert (Hbuy : Forall (fun d => is_buy_order d = true)
                        (filter is_buy_order ds)).
  { apply Forall_forall. intros d Hd. now apply filter_In in Hd. }
  revert Hbuy. induction Hloop as [| d r l rs Hr _ IH]; intros Hbuy;
    constructor.
  - inversion Hbuy; subst. now apply (@attempt_consistent d).
  - inversion Hbuy; subst. now apply IH.
Qed.

(** X16.  Splitting a batch changes nothing: executing [pre] and then
    [post] from the world [pre] left gives the results, and the end
    state, of executing [pre ++ post] in one call. *)
Theorem execute_trades_in_two_batches
        (pre post : list InvestmentDecision) s s1 s2 r1 r2 :
  execute_trades svc pre s = (s1, Ok r1) ->
  execute_trades svc post s1 = (s2, Ok r2) ->
  execute_trades svc (pre ++ post) s = (s2, Ok (r1 ++ r2)).
Proof.
  unfold execute_trades. intros H1 H2.
  destruct (get_alpaca_client_cases svc s) as [[Hcred [c Hc]] | [_ [e [Hc _]]]].
  2: { rewrite (bind_raise _ _ _ Hc) in H1. discriminate. }
  destruct (get_alpaca_client_ok svc Hcred) as [client Hcl].
  rewrite (bind_ok _ _ _ (Hcl s)) in H1.
  rewrite (bind_ok _ _ _ (Hcl s1)) in H2.
  rewrite (bind_ok _ _ _ (Hcl s)).
  rewrite loop_app, (bind_ok _ _ _ H1), loop_acc, H2. reflexivity.
Qed.

(** X17.  An order the broker accepted is still recorded as a failure
    when its fill price cannot be read as a float: the order is in the
    trace, the result says [success = False] with the conversion error
    as its message. *)
Theorem accepted_order_with_unreadable_price_is_a_failure
        client (d : InvestmentDecision) req s w1 order e :
  get_alpaca_client svc s = (s, Ok client) ->
  is_buy_order d = true ->
  market_order d = Ok req ->
  submit_order svc client req (world s) = (w1, Ok order) ->
  truthy (filled_avg_price order) = true ->
  float_of (filled_avg_price order) = Raise e ->
  execute_trades svc [d] s =
    ({| world := fst (now_isoformat svc w1);
        trace := trace s ++ [CallSubmitOrder req] |},
     Ok [failed_result d e (snd (now_isoformat svc w1))]).
Proof.
  intros Hc Hd Hreq Hsub Htruthy Hfloat.
  unfold execute_trades. rewrite (bind_ok _ _ _ Hc).
  rewrite loop_attempt by assumption.
  unfold bind, try_except, place_order, record_failure, bind, lift.
  rewrite Hreq, call_eq, Hsub. cbn [fst snd]. rewrite Htruthy.
  rewrite Hfloat, observe_eq. reflexivity.
Qed.

(** X18.  An order that comes back without a fill price is recorded as
    a success at price 0.0. *)
Theorem unfilled_order_is_a_success_at_price_zero
        client (d : InvestmentDecision) req s w1 order :
  get_alpaca_client svc s = (s, Ok client) ->
  is_buy_order d = true ->
  market_order d = Ok req ->
  submit_order svc client req (world s) = (w1, Ok order) ->
  truthy (filled_avg_price order) = false ->
  execute_trades svc [d] s =
    ({| world := fst (now_isoformat svc w1);
        trace := trace s ++ [CallSubmitOrder req] |},
     Ok [filled_result d order fzero (snd (now_isoformat svc w1))]).
Proof.
  intros Hc Hd Hreq Hsub Htruthy.
  unfold execute_trades. rewrite (bind_ok _ _ _ Hc).
  rewrite loop_attempt by assumption.
  unfold bind, try_except, place_order, record_failure, bind, lift.
  rewrite Hreq, call_eq, Hsub. cbn [fst snd]. rewrite Htruthy.
  unfold ret. rewrite observe_eq. reflexivity.
Qed.

(** X30.  A buy decision whose share count does not fit the float field
    of the request is recorded as a failure with the constructor's error
    as its message, and no order is submitted for it. *)
Theorem unbuildable_request_is_a_failure_without_order
        client (d : InvestmentDecision) s e :
  get_alpaca_client svc s = (s, Ok client) ->
  is_buy_order d = true ->
  market_order d = Raise e ->
  execute_trades svc [d] s =
    ({| world := fst (now_isoformat svc (world s)); trace := trace s |},
     Ok [failed_result d e (snd (now_isoformat svc (world s)))]).
Proof.
  intros Hc Hd Hreq.
  unfold execute_trades. rewrite (bind_ok _ _ _ Hc).
  rewrite loop_attempt by assumption.
  unfold bind, try_except, place_order, record_failure, bind, lift.
  rewrite Hreq, observe_eq. reflexivity.
Qed.
End ExecutionResults.

Lemma execute_trades_results_are_consistent_witness :
  exists results : list (@TradeResult Demo.CentsFloat),
    length results = 2%nat /\ Forall consistent_result results.
Proof.
  eexists. split.
  2: { eapply (@execute_trades_results_are_consistent Demo.CentsFloat nat
                 (Demo.services Demo.one_rejected) Demo.mixed_decisions
                 Demo.start_state).
       vm_compute. reflexivity. }
  reflexivity.
Defined.

Lemma execute_trades_in_two_batches_witness :
  let svc := Demo.services Demo.one_rejected in
  let pre := [Demo.decision "AAA" "BUY" 10; Demo.decision "BBB" "SELL" 5] in
  let post := [Demo.decision "CCC" "BUY" 3] in
  exists s2 r1 r2,
    length r1 = 1%nat /\ length r2 = 1%nat /\
    execute_trades svc (pre ++ post) Demo.start_state = (s2, Ok (r1 ++ r2)).
Proof.
  intros svc pre post. do 3 eexists. split; [| split].
  3: { eapply (@execute_trades_in_two_batches Demo.CentsFloat nat svc pre post
                 Demo.start_state).
       - vm_compute. reflexivity.
       - vm_compute. reflexivity. }
  - reflexivity.
  - reflexivity.
Defined.

Lemma accepted_order_with_unreadable_price_is_a_failure_witness :
  let svc := TextFixtures.services "pending" in
  let d := TextFixtures.buy "AAA" 10 in
  execute_trades svc [d] TextFixtures.start_state =
    ({| world := 1%nat;
        trace := [CallSubmitOrder (TextFixtures.request "AAA" 10)] |},
     Ok [failed_result d
           (Exc ValueError "could not convert string to float") "t"]).
Proof.
  intros svc d.
  apply (@accepted_order_with_unreadable_price_is_a_failure
           TextFixtures.TextFloat nat svc TextFixtures.client d
           (TextFixtures.request "AAA" 10)
           TextFixtures.start_state 1%nat
           (TextFixtures.order "AAA" "pending")).
  - reflexivity.
  - reflexivity.
  - reflexivity.
  - reflexivity.
  - reflexivity.
  - reflexivity.
Defined.

Lemma unfilled_order_is_a_success_at_price_zero_witness :
  let svc := Fixtures.with_fill_price Demo.nothing_to_do None in
  let d := Demo.decision "AAA" "BUY" 10 in
  let order := Fixtures.order "AAA" None in
  execute_trades svc [d] Demo.start_state =
    ({| world := 1%nat;
        trace := [CallSubmitOrder (Fixtures.request "AAA" 10)] |},
     Ok [filled_result d order 0 "t"]).
Proof.
  intros svc d order.
  apply (@unfilled_order_is_a_success_at_price_zero
           Demo.CentsFloat nat svc
           {| client_api_key := "key"; client_api_secret := "secret";
              paper := true |} d (Fixtures.request "AAA" 10)
           Demo.start_state 1%nat order).
  - reflexivity.
  - reflexivity.
  - reflexivity.
  - reflexivity.
  - reflexivity.
Defined.

Lemma unbuildable_request_is_a_failure_without_order_witness :
  let svc := Demo.services Demo.nothing_to_do in
  let d := Demo.decision "BIG" "BUY" (10 ^ 309) in
  let e := Exc OverflowError "int too large to convert to float" in
  execute_trades svc [d] Demo.start_state =
    ({| world := O; trace := [] |}, Ok [failed_result d e "t"]).
Proof.
  intros svc d e.
  apply (@unbuildable_request_is_a_failure_without_order
           Demo.CentsFloat nat svc Fixtures.client d Demo.start_state e).
  - reflexivity.
  - reflexivity.
  - reflexivity.
Defined.

(** ** Dicts kept in insertion order *)

Section Dicts.
Context {V : Type}.

Lemma dict_get_set_same (d : list (string * V)) k v :
  dict_get (dict_set d k v) k = Some v.
Proof.
  induction d as [| [k' v'] d IH]; cbn.
  - now rewrite String.eqb_refl.
  - destruct (String.eqb k' k) eqn:E; cbn.
    + now rewrite String.eqb_refl.
    + now rewrite E.
Qed.

Lemma dict_get_set_other (d : list (string * V)) k v k0 :
  k0 <> k -> dict_get (dict_set d k v) k0 = dict_get d k0.
Proof.
  intros Hne. induction d as [| [k' v'] d IH]; cbn.
  - destruct (String.eqb_spec k k0); [congruence | reflexivity].
  - destruct (String.eqb_spec k' k) as [-> | Hk]; cbn.
    + destruct (String.eqb_spec k k0); [congruence | reflexivity].
    + now rewrite IH.
Qed.

Lemma dict_set_keys (d : list (string * V)) k v k0 :
  In k0 (map fst (dict_set d k v)) <-> In k0 (map fst d) \/ k0 = k.
Proof.
  induction d as [| [k' v'] d IH]; cbn.
  - intuition congruence.
  - destruct (String.eqb_spec k' k) as [-> | Hk]; cbn.
    + intuition congruence.
    + rewrite IH. intuition congruence.
Qed.

Lemma dict_set_NoDup (d : list (string * V)) k v :
  NoDup (map fst d) -> NoDup (map fst (dict_set d k v)).
Proof.
  induction d as [| [k' v'] d IH]; cbn; intros Hnd.
  - constructor; [intros [] | constructor].
  - inversion Hnd as [| ? ? Hnotin Hnd']; subst.
    destruct (String.eqb_spec k' k) as [-> | Hk]; cbn.
    + constructor; assumption.
    + constructor; [| now apply IH].
      rewrite dict_set_keys. intuition congruence.
Qed.
End Dicts.

Lemma find_app_first {A : Type} (f : A -> bool) (l1 l2 : list A) :
  find f (l1 ++ l2) =
  match find f l1 with
  | Some x => Some x
  | None => find f l2
  end.
Proof.
  induction l1 as [| x l1 IH]; cbn; [reflexivity |].
  destruct (f x); [reflexivity | exact IH].
Qed.

(** ** [alpaca_client.py]: [get_account_info] *)

Section AccountInfoFacts.
Context {PF : PyFloat} {W : Type} (svc : Services W).

Lemma positions_loop_spec (ps : list Position) :
  forall acc d,
    positions_loop ps acc = Ok d ->
    (NoDup (map fst acc) -> NoDup (map fst d)) /\
    (forall sym, In sym (map fst d) <->
                 In sym (map fst acc) \/ In sym (map pos_symbol ps)) /\
    (forall sym,
        match last_position ps sym with
        | Some pos => exists info, position_info pos = Ok info /\
                                   dict_get d sym = Some info
        | None => dict_get d sym = dict_get acc sym
        end).
Proof.
  induction ps as [| p ps IH]; intros acc d H; cbn in H.
  - injection H as <-. cbn. repeat split; intuition.
  - destruct (position_info p) as [info | e] eqn:Hp; [| discriminate].
    destruct (IH _ _ H) as (Hnd & Hkeys & Hget).
    split; [| split].
    + intros Hacc. apply Hnd. now apply dict_set_NoDup.
    + intros sym. rewrite Hkeys, dict_set_keys. cbn. intuition congruence.
    + intros sym. specialize (Hget sym). unfold last_position in *.
      cbn [rev]. rewrite find_app_first.
      destruct (find _ (rev ps)) as [pos |]; [exact Hget |].
      cbn [find]. destruct (String.eqb_spec (pos_symbol p) sym) as [<- | Hne].
      * exists info. split; [exact Hp |].
        rewrite Hget. apply dict_get_set_same.
      * rewrite Hget. apply dict_get_set_other. congruence.
Qed.

Lemma positions_loop_raises (ps : list Position) pos e0 :
  In pos ps -> position_info pos = Raise e0 ->
  forall acc, exists e, positions_loop ps acc = Raise e.
Proof.
  intros Hin Hbad. induction ps as [| p ps IH]; [destruct Hin |].
  intros acc. cbn. destruct (position_info p) as [info | e] eqn:Hp.
  - destruct Hin as [-> | Hin]; [congruence |]. now apply IH.
  - now exists e.
Qed.

(** X19.  The positions dict of the account info has one entry per
    symbol the broker reported, under distinct keys; where the broker
    lists a symbol more than once, the entry is built from the last of
    its positions. *)
Theorem account_positions_are_keyed_by_symbol
        client s w1 account w2 ps s' acct :
  get_alpaca_client svc s = (s, Ok client) ->
  get_account svc client (world s) = (w1, Ok account) ->
  get_all_positions svc client w1 = (w2, Ok ps) ->
  get_account_info svc s = (s', Ok acct) ->
  NoDup (map fst (positions acct)) /\
  (forall sym, In sym (map fst (positions acct)) <->
               In sym (map pos_symbol ps)) /\
  (forall sym pos,
      last_position ps sym = Some pos ->
      exists info, position_info pos = Ok info /\
                   dict_get (positions acct) sym = Some info).
Proof.
  intros Hc Hacc Hpos H.
  unfold get_account_info in H. rewrite (bind_ok _ _ _ Hc) in H.
  unfold bind, lift, ret in H. rewrite !call_eq in H.
  rewrite Hacc in H. cbn [fst snd world trace] in H.
  rewrite Hpos in H. cbn [fst snd] in H.
  destruct (positions_loop ps []) as [d | e] eqn:Hloop; [| discriminate].
  destruct (float_of (account_cash account)); [| discriminate].
  destruct (float_of (account_portfolio_value account)); [| discriminate].
  destruct (float_of (account_buying_power account)); [| discriminate].
  injection H as _ <-. cbn [positions].
  destruct (positions_loop_spec _ _ Hloop) as (Hnd & Hkeys & Hget).
  split; [apply Hnd; constructor | split].
  - intros sym. rewrite Hkeys. cbn. intuition.
  - intros sym pos Hlast. specialize (Hget sym). now rewrite Hlast in Hget.
Qed.

(** X20.  One position with a numeric field that [float()] rejects makes
    the whole account query raise, after both remote calls have been
    made. *)
Theorem one_bad_position_fails_the_account_query
        client s w1 account w2 ps pos e0 :
  get_alpaca_client svc s = (s, Ok client) ->
  get_account svc client (world s) = (w1, Ok account) ->
  get_all_positions svc client w1 = (w2, Ok ps) ->
  In pos ps ->
  position_info pos = Raise e0 ->
  exists e,
    get_account_info svc s =
      ({| world := w2;
          trace := trace s ++ [CallGetAccount; CallGetAllPositions] |},
       Raise e).
Proof.
  intros Hc Hacc Hpos Hin Hbad.
  destruct (positions_loop_raises _ _ Hin Hbad []) as [e He].
  exists e. unfold get_account_info. rewrite (bind_ok _ _ _ Hc).
  unfold bind, lift. rewrite !call_eq.
  rewrite Hacc. cbn [fst snd world trace]. rewrite Hpos. cbn [fst snd].
  rewrite He. now rewrite <- app_assoc.
Qed.
End AccountInfoFacts.

Lemma account_positions_are_keyed_by_symbol_witness :
  let ps := [Fixtures.position "AAA" (Some 1); Fixtures.position "BBB" (Some 2);
             Fixtures.position "AAA" (Some 3)] in
  exists acct : @AccountInfo Demo.CentsFloat,
    map fst (positions acct) = ["AAA"; "BBB"] /\
    NoDup (map fst (positions acct)) /\
    (forall sym, In sym (map fst (positions acct)) <->
                 In sym (map pos_symbol ps)) /\
    (forall sym pos,
        last_position ps sym = Some pos ->
        exists info, position_info pos = Ok info /\
                     dict_get (positions acct) sym = Some info).
Proof.
  intros ps. eexists. split.
  2: { eapply (@account_positions_are_keyed_by_symbol Demo.CentsFloat nat
                 (Fixtures.with_positions Demo.nothing_to_do ps)
                 Fixtures.client Demo.start_state O Fixtures.account O ps).
       - reflexivity.
       - reflexivity.
       - reflexivity.
       - vm_compute. reflexivity. }
  reflexivity.
Defined.

Lemma one_bad_position_fails_the_account_query_witness :
  let ps := [Fixtures.position "AAA" (Some 1); Fixtures.position "BBB" None] in
  exists e,
    get_account_info (Fixtures.with_positions Demo.nothing_to_do ps)
                     Demo.start_state =
      ({| world := O; trace := [] ++ [CallGetAccount; CallGetAllPositions] |},
       Raise e).
Proof.
  intros ps.
  eapply (@one_bad_position_fails_the_account_query Demo.CentsFloat nat
            (Fixtures.with_positions Demo.nothing_to_do ps)
            Fixtures.client Demo.start_state O Fixtures.account O ps
            (Fixtures.position "BBB" None)).
  - reflexivity.
  - reflexivity.
  - reflexivity.
  - right. left. reflexivity.
  - reflexivity.
Defined.

(** ** [grok_client.py]: the input of the decision stage *)

Section GrokInputFacts.
Context {PF : PyFloat}.

Lemma merge_loop_map (fund_map : list (string * FundamentalData)) picks :
  forall companies,
    merge_loop fund_map picks companies =
    companies ++ map (company_data fund_map) picks.
Proof.
  induction picks as [| p picks IH]; intros companies; cbn.
  - now rewrite app_nil_r.
  - rewrite IH, <- app_assoc. reflexivity.
Qed.

Lemma fund_map_get (fs : list FundamentalData) tkr :
  forall acc,
    dict_get (fold_left (fun fund_map f => dict_set fund_map (fund_ticker f) f)
                        fs acc) tkr =
    match last_fundamental fs tkr with
    | Some f => Some f
    | None => dict_get acc tkr
    end.
Proof.
  induction fs as [| f fs IH]; intros acc; cbn [fold_left].
  - reflexivity.
  - rewrite IH. unfold last_fundamental. cbn [rev]. rewrite find_app_first.
    destruct (find _ (rev fs)); [reflexivity |]. cbn [find].
    destruct (String.eqb_spec (fund_ticker f) tkr) as [<- | Hne].
    + apply dict_get_set_same.
    + apply dict_get_set_other. congruence.
Qed.

(** X21.  The input assembled for the decision stage lists the picks one
    for one and in their order; each carries the figures of the last
    analysis record with its ticker, or no fundamentals when there is
    none; capital and positions are passed on unchanged. *)
Theorem decision_input_follows_the_picks
        (picks : list CompanyPick) (fs : list FundamentalData)
        (capital : float) (held : list (string * PositionInfo)) :
  in_companies (build_input_data picks fs capital held) =
    map (fun pick =>
           {| cd_company := pick_company pick;
              cd_ticker := pick_ticker pick;
              cd_news_rationale := pick_rationale pick;
              cd_news_summary := pick_news_summary pick;
              cd_fundamentals :=
                option_map fundamentals_entry
                           (last_fundamental fs (pick_ticker pick)) |})
        picks /\
  in_available_capital (build_input_data picks fs capital held) = capital /\
  in_current_positions (build_input_data picks fs capital held) = held.
Proof.
  unfold build_input_data. cbn. split; [| split; reflexivity].
  rewrite merge_loop_map. cbn. apply map_ext. intros pick.
  unfold company_data, fund_map_of. rewrite fund_map_get.
  destruct (last_fundamental fs (pick_ticker pick)); reflexivity.
Qed.

Lemma last_fundamental_none (fs : list FundamentalData) tkr :
  last_fundamental fs tkr = None <-> ~ In tkr (map fund_ticker fs).
Proof.
  unfold last_fundamental. split.
  - intros Hnone Hin. apply in_map_iff in Hin. destruct Hin as (f & <- & Hf).
    apply in_rev in Hf.
    pose proof (find_none _ _ Hnone f Hf) as H. cbn in H.
    now rewrite String.eqb_refl in H.
  - intros Hnot. destruct (find _ (rev fs)) as [f |] eqn:Hfind;
      [| reflexivity].
    apply find_some in Hfind. destruct Hfind as [Hf Heq].
    apply String.eqb_eq in Heq. exfalso. apply Hnot.
    apply in_map_iff. exists f. split; [exact Heq |]. now apply in_rev.
Qed.

(** X22.  A company reaches the decision stage without fundamentals
    exactly when no analysis record carries its ticker, and only picked
    companies reach it: an analysis record for a ticker that was not
    picked is left out. *)
Theorem unmatched_records_are_left_out
        (picks : list CompanyPick) (fs : list FundamentalData)
        (capital : float) (held : list (string * PositionInfo)) cd :
  In cd (in_companies (build_input_data picks fs capital held)) ->
  In (cd_ticker cd) (map pick_ticker picks) /\
  (cd_fundamentals cd = None <-> ~ In (cd_ticker cd) (map fund_ticker fs)).
Proof.
  unfold build_input_data. cbn. rewrite merge_loop_map. cbn.
  intros Hin. apply in_map_iff in Hin. destruct Hin as (pick & <- & Hpick).
  cbn. split; [now apply in_map |].
  unfold fund_map_of. rewrite fund_map_get, <- last_fundamental_none.
  destruct (last_fundamental fs (pick_ticker pick)); split;
    intros H; try discriminate; reflexivity.
Qed.
End GrokInputFacts.

Lemma unmatched_records_are_left_out_witness :
  let picks := picks Demo.five_picks in
  let fs := [Fixtures.fundamental "BBB" 20; Fixtures.fundamental "ZZZ" 5;
             Fixtures.fundamental "BBB" 30] in
  let cd := Fixtures.bare_company "AAA" in
  In (cd_ticker cd) (map pick_ticker picks) /\
  (cd_fundamentals cd = None <-> ~ In (cd_ticker cd) (map fund_ticker fs)).
Proof.
  intros picks fs cd.
  apply (@unmatched_records_are_left_out Demo.CentsFloat picks fs 1000 [] cd).
  left. reflexivity.
Defined.

(** ** [api_keys.py] *)

(** X23.  With the table as shipped, [get_key(service)] returns the
    API_KEY entry of each of the four services ALPACA, POLYGON, OPENAI
    and TRADIER; for every other service name, whatever the key name,
    it raises the [KeyError] that names the service. *)
Theorem get_key_knows_four_services (service : string) :
  (In service ["ALPACA"; "POLYGON"; "OPENAI"; "TRADIER"] ->
   exists v, get_key_default API_KEYS service = KeyFound v /\
             dict_get API_KEYS service <> None) /\
  (~ In service ["ALPACA"; "POLYGON"; "OPENAI"; "TRADIER"] ->
   forall key_name,
     get_key API_KEYS service key_name =
     KeyError ("Service '" ++ service ++ "' not found in API_KEYS")%string).
Proof.
  split.
  - intros [<- | [<- | [<- | [<- | []]]]]; eexists; split;
      try reflexivity; discriminate.
  - intros Hnot key_name. unfold get_key, API_KEYS. cbn [dict_get].
    destruct (String.eqb_spec "ALPACA" service) as [<- | _];
      [exfalso; apply Hnot; cbn; auto |].
    destruct (String.eqb_spec "POLYGON" service) as [<- | _];
      [exfalso; apply Hnot; cbn; auto |].
    destruct (String.eqb_spec "OPENAI" service) as [<- | _];
      [exfalso; apply Hnot; cbn; auto |].
    destruct (String.eqb_spec "TRADIER" service) as [<- | _];
      [exfalso; apply Hnot; cbn; auto |].
    reflexivity.
Qed.

(** ** [claude_client.py], [grok_client.py]: the text cut out of a reply *)

Section ReplyTextFacts.
Context {char : Type} (char_eqb : char -> char -> bool)
        (isspace : char -> bool).
Hypothesis char_eqb_eq : forall a b, char_eqb a b = true <-> a = b.

Lemma startswith_iff (p : list char) :
  forall s, startswith char_eqb s p = true <-> exists rest, s = p ++ rest.
Proof.
  induction p as [| a p IH]; intros s.
  - split; [intros _; now exists s | intros _; now destruct s].
  - destruct s as [| c s]; cbn.
    + split; [discriminate | intros [rest H]; discriminate].
    + rewrite andb_true_iff, char_eqb_eq, IH. split.
      * intros [-> [rest ->]]. now exists rest.
      * intros [rest H]. injection H as -> ->. split; [reflexivity |].
        now exists rest.
Qed.

Lemma startswith_skipn (p s : list char) :
  startswith char_eqb s p = true -> s = p ++ skipn (length p) s.
Proof.
  intros H. apply startswith_iff in H. destruct H as [rest ->].
  rewrite skipn_app, skipn_all, Nat.sub_diag. reflexivity.
Qed.

Lemma str_partition_eq (s sep : list char) :
  str_partition char_eqb s sep =
  if startswith char_eqb s sep then Some ([], skipn (length sep) s)
  else
    match s with
    | [] => None
    | c :: s' =>
        match str_partition char_eqb s' sep with
        | Some (before, after) => Some (c :: before, after)
        | None => None
        end
    end.
Proof. destruct s; reflexivity. Qed.

Lemma str_partition_sound (sep : list char) :
  forall s b a,
    str_partition char_eqb s sep = Some (b, a) -> s = b ++ sep ++ a.
Proof.
  induction s as [| c s IH]; intros b a; rewrite str_partition_eq;
    destruct (startswith char_eqb _ sep) eqn:Hs; intros H;
    try discriminate.
  - injection H as <- <-. now apply startswith_skipn.
  - injection H as <- <-. now apply startswith_skipn.
  - destruct (str_partition char_eqb s sep) as [[b' a'] |] eqn:Hp;
      [| discriminate].
    injection H as <- <-. cbn. f_equal. now apply IH.
Qed.

Lemma str_partition_first (sep : list char) :
  forall s b a,
    str_partition char_eqb s sep = Some (b, a) ->
    forall u v, s = u ++ sep ++ v -> (length b <= length u)%nat.
Proof.
  induction s as [| c s IH]; intros b a; rewrite str_partition_eq;
    destruct (startswith char_eqb _ sep) eqn:Hs; intros H u v Hu;
    try discriminate.
  - injection H as <- _. cbn. lia.
  - injection H as <- _. cbn. lia.
  - destruct (str_partition char_eqb s sep) as [[b' a'] |] eqn:Hp;
      [| discriminate].
    injection H as <- _. destruct u as [| c' u].
    + cbn in Hu. assert (Hst : startswith char_eqb (c :: s) sep = true)
        by (apply startswith_iff; now exists v).
      congruence.
    + cbn in Hu. injection Hu as _ Hu. cbn.
      specialize (IH _ _ eq_refl _ _ Hu). lia.
Qed.

Lemma str_partition_complete (sep : list char) :
  forall s u v,
    s = u ++ sep ++ v ->
    exists b a, str_partition char_eqb s sep = Some (b, a).
Proof.
  induction s as [| c s IH]; intros u v Hu; rewrite str_partition_eq;
    destruct (startswith char_eqb _ sep) eqn:Hs;
    try (do 2 eexists; reflexivity).
  - destruct u as [| c' u]; [| discriminate]. cbn in Hu.
    assert (Hst : startswith char_eqb [] sep = true)
      by (apply startswith_iff; now exists v).
    congruence.
  - destruct u as [| c' u].
    + cbn in Hu. assert (Hst : startswith char_eqb (c :: s) sep = true)
        by (apply startswith_iff; now exists v).
      congruence.
    + cbn in Hu. injection Hu as _ Hu.
      destruct (IH _ _ Hu) as (b & a & ->). do 2 eexists; reflexivity.
Qed.

Lemma contains_iff (sep s : list char) :
  contains char_eqb sep s = true <-> exists u v, s = u ++ sep ++ v.
Proof.
  unfold contains. split.
  - destruct (str_partition char_eqb s sep) as [[b a] |] eqn:Hp;
      [| discriminate].
    intros _. exists b, a. now apply (@str_partition_sound _ _ _ _ Hp).
  - intros (u & v & Hu).
    destruct (@str_partition_complete _ _ _ _ Hu) as (b & a & ->). reflexivity.
Qed.

Lemma contains_part (sep l m r : list char) :
  contains char_eqb sep m = true ->
  contains char_eqb sep (l ++ m ++ r) = true.
Proof.
  rewrite !contains_iff. intros (u & v & ->).
  exists (l ++ u), (v ++ r). now rewrite <- !app_assoc.
Qed.

Lemma no_part_of_free (sep l m r : list char) :
  contains char_eqb sep (l ++ m ++ r) = false ->
  contains char_eqb sep m = false.
Proof.
  intros H. destruct (contains char_eqb sep m) eqn:Hm; [| reflexivity].
  rewrite (@contains_part sep l m r Hm) in H. discriminate.
Qed.

Lemma app_same_length {A : Type} (a b x y : list A) :
  a ++ x = b ++ y -> length a = length b -> a = b /\ x = y.
Proof.
  revert b. induction a as [| c a IH]; intros [| c' b] H Hlen;
    try discriminate.
  - now split.
  - cbn in *. injection H as -> H. injection Hlen as Hlen.
    destruct (IH _ H Hlen) as [-> ->]. now split.
Qed.

(** Where the leftmost occurrence lies when none starts earlier. *)
Lemma str_partition_at (sep pre rest : list char) :
  (forall u v, pre ++ sep ++ rest = u ++ sep ++ v ->
               (length pre <= length u)%nat) ->
  str_partition char_eqb (pre ++ sep ++ rest) sep = Some (pre, rest).
Proof.
  intros Hfirst.
  destruct (@str_partition_complete sep (pre ++ sep ++ rest) pre rest eq_refl)
    as (b & a & Hp).
  pose proof (@str_partition_sound _ _ _ _ Hp) as Hs.
  pose proof (@str_partition_first _ _ _ _ Hp pre rest eq_refl) as Hle.
  pose proof (Hfirst _ _ Hs) as Hge.
  destruct (@app_same_length _ _ _ _ _ Hs) as [<- Hrest]; [lia |].
  apply app_inv_head in Hrest. now subst.
Qed.

(** No occurrence of a separator starts inside a text that lacks the
    separator's first character. *)
Lemma no_early_occurrence (t : char) (sep' pre : list char) :
  ~ In t pre ->
  forall x u v, pre ++ x = u ++ (t :: sep') ++ v ->
                (length pre <= length u)%nat.
Proof.
  induction pre as [| c pre IH]; intros Hnot x u v H; cbn; [lia |].
  destruct u as [| c' u]; cbn in H.
  - injection H as -> _. exfalso. apply Hnot. now left.
  - injection H as _ H. cbn.
    assert (Hnot' : ~ In t pre) by (intros Hin; apply Hnot; now right).
    specialize (IH Hnot' _ _ _ H). lia.
Qed.

Lemma before_is_free (sep s b a : list char) :
  sep <> [] ->
  str_partition char_eqb s sep = Some (b, a) ->
  contains char_eqb sep b = false.
Proof.
  intros Hne Hp. destruct (contains char_eqb sep b) eqn:Hc; [| reflexivity].
  apply contains_iff in Hc. destruct Hc as (u & v & ->).
  pose proof (@str_partition_sound _ _ _ _ Hp) as Hs.
  rewrite <- !app_assoc in Hs.
  pose proof (@str_partition_first _ _ _ _ Hp u _ Hs) as Hle.
  rewrite !length_app in Hle. destruct sep; [congruence |]. cbn in Hle. lia.
Qed.

Lemma split_item0_free (sep s : list char) :
  sep <> [] -> contains char_eqb sep (split_item0 char_eqb s sep) = false.
Proof.
  intros Hne. unfold split_item0.
  destruct (str_partition char_eqb s sep) as [[b a] |] eqn:Hp.
  - now apply (@before_is_free sep s b a Hne Hp).
  - unfold contains. now rewrite Hp.
Qed.

Lemma split_item0_prefix (sep s : list char) :
  exists r, s = split_item0 char_eqb s sep ++ r.
Proof.
  unfold split_item0.
  destruct (str_partition char_eqb s sep) as [[b a] |] eqn:Hp.
  - exists (sep ++ a). now apply (@str_partition_sound _ _ _ _ Hp).
  - exists []. now rewrite app_nil_r.
Qed.

Lemma split_item1_part (sep s x : list char) :
  split_item1 char_eqb s sep = Some x -> exists l r, s = l ++ x ++ r.
Proof.
  unfold split_item1.
  destruct (str_partition char_eqb s sep) as [[b a] |] eqn:Hp;
    [| discriminate].
  intros H. injection H as <-.
  destruct (split_item0_prefix sep a) as [r Hr].
  exists (b ++ sep), r.
  rewrite (@str_partition_sound _ _ _ _ Hp) at 1. rewrite Hr at 1.
  now rewrite <- !app_assoc.
Qed.

Lemma lstrip_suffix (s : list char) : exists l, s = l ++ lstrip isspace s.
Proof.
  induction s as [| c s [l IH]]; cbn.
  - now exists [].
  - destruct (isspace c).
    + exists (c :: l). cbn. now f_equal.
    + now exists [].
Qed.

Lemma rstrip_prefix (s : list char) : exists r, s = rstrip isspace s ++ r.
Proof.
  unfold rstrip. destruct (lstrip_suffix (rev s)) as [l Hl].
  exists (rev l). rewrite <- rev_app_distr, <- Hl. now rewrite rev_involutive.
Qed.

Lemma strip_part (s : list char) : exists l r, s = l ++ strip isspace s ++ r.
Proof.
  unfold strip. destruct (lstrip_suffix s) as [l Hl].
  destruct (rstrip_prefix (lstrip isspace s)) as [r Hr].
  exists l, r. rewrite Hl at 1. now rewrite Hr at 1.
Qed.

Lemma part_of_part (s x y l r l' r' : list char) :
  s = l ++ x ++ r -> x = l' ++ y ++ r' -> exists a b, s = a ++ y ++ b.
Proof.
  intros -> ->. exists (l ++ l'), (r' ++ r). now rewrite <- !app_assoc.
Qed.

Lemma fence_with_tag (fence tag s : list char) :
  contains char_eqb (fence ++ tag) s = true ->
  contains char_eqb fence s = true.
Proof.
  rewrite !contains_iff. intros (u & v & ->).
  exists u, (tag ++ v). now rewrite <- !app_assoc.
Qed.
End ReplyTextFacts.

Section ReplyTextClaims.
Context {char : Type} (char_eqb : char -> char -> bool)
        (isspace : char -> bool).
Hypothesis char_eqb_eq : forall a b, char_eqb a b = true <-> a = b.

Lemma free_of_first_char (t : char) (sep' s : list char) :
  ~ In t s -> contains char_eqb (t :: sep') s = false.
Proof.
  intros Hnot. destruct (contains char_eqb (t :: sep') s) eqn:Hc;
    [| reflexivity].
  apply (@contains_iff _ char_eqb char_eqb_eq) in Hc.
  destruct Hc as (u & v & ->).
  exfalso. apply Hnot. apply in_or_app. right. now left.
Qed.

Lemma split_item0_of_free (sep s : list char) :
  contains char_eqb sep s = false -> split_item0 char_eqb s sep = s.
Proof.
  unfold contains, split_item0.
  destruct (str_partition char_eqb s sep) as [[b a] |];
    [discriminate | reflexivity].
Qed.

(** The leftmost occurrence of a separator behind a text that lacks
    the separator's first character. *)
Lemma str_partition_behind (t : char) (sep' pre rest : list char) :
  ~ In t pre ->
  str_partition char_eqb (pre ++ (t :: sep') ++ rest) (t :: sep')
  = Some (pre, rest).
Proof.
  intros Hnot. apply (@str_partition_at _ char_eqb char_eqb_eq).
  intros u v H. exact (@no_early_occurrence _ t sep' pre Hnot _ _ _ H).
Qed.

(** X24.  Cutting the text out of a reply never fails (the indexing
    after each [split] is guarded by the test before it), and the text
    handed to [json.loads] is always a contiguous part of the reply. *)
Theorem json_text_is_part_of_the_reply (fence tag content : list char) :
  exists text,
    json_text char_eqb isspace fence tag content = Some text /\
    exists l r, content = l ++ text ++ r.
Proof.
  assert (Hcut : forall sep,
             contains char_eqb sep content = true ->
             exists inner,
               split_item1 char_eqb content sep = Some inner /\
               exists l r,
                 content = l ++ strip isspace (split_item0 char_eqb inner fence)
                             ++ r).
  { intros sep Hc. unfold contains in Hc. unfold split_item1.
    destruct (str_partition char_eqb content sep) as [[b a] |] eqn:Hp;
      [| discriminate].
    eexists. split; [reflexivity |].
    assert (H1 : split_item1 char_eqb content sep
                 = Some (split_item0 char_eqb a sep))
      by (unfold split_item1; now rewrite Hp).
    destruct (@split_item1_part _ char_eqb char_eqb_eq _ _ _ H1)
      as (l1 & r1 & E1).
    destruct (@split_item0_prefix _ char_eqb char_eqb_eq fence
                (split_item0 char_eqb a sep)) as [r2 E2].
    destruct (@strip_part _ isspace
                (split_item0 char_eqb (split_item0 char_eqb a sep) fence))
      as (l3 & r3 & E3).
    assert (E2' : split_item0 char_eqb a sep =
                  [] ++ split_item0 char_eqb (split_item0 char_eqb a sep) fence
                     ++ r2) by exact E2.
    destruct (@part_of_part _ _ _ _ _ _ _ _ E1 E2') as (l4 & r4 & E4).
    exact (@part_of_part _ _ _ _ _ _ _ _ E4 E3). }
  unfold json_text.
  destruct (contains char_eqb (fence ++ tag) content) eqn:Hj.
  - destruct (Hcut _ Hj) as (inner & -> & Hpart). eexists. split;
      [reflexivity | exact Hpart].
  - destruct (contains char_eqb fence content) eqn:Hf.
    + destruct (Hcut _ Hf) as (inner & -> & Hpart). eexists. split;
        [reflexivity | exact Hpart].
    + eexists. split; [reflexivity | apply (@strip_part _ isspace)].
Qed.

(** X25.  When the reply contains a code fence, the text handed to
    [json.loads] contains none; when it contains no fence, the text is
    the whole reply with the white space at both ends removed. *)
Theorem json_text_has_no_fence (fence tag content text : list char) :
  fence <> [] ->
  json_text char_eqb isspace fence tag content = Some text ->
  (contains char_eqb fence content = true ->
   contains char_eqb fence text = false) /\
  (contains char_eqb fence content = false ->
   text = strip isspace content).
Proof.
  intros Hne Htext.
  assert (Hfree : forall inner,
             contains char_eqb fence
               (strip isspace (split_item0 char_eqb inner fence)) = false).
  { intros inner.
    destruct (@strip_part _ isspace (split_item0 char_eqb inner fence))
      as (l & r & E).
    apply (@no_part_of_free _ char_eqb char_eqb_eq fence l _ r).
    rewrite <- E. now apply (@split_item0_free _ char_eqb char_eqb_eq). }
  unfold json_text in Htext.
  destruct (contains char_eqb (fence ++ tag) content) eqn:Hj.
  - pose proof (@fence_with_tag _ char_eqb char_eqb_eq _ _ _ Hj) as Hf.
    destruct (split_item1 char_eqb content (fence ++ tag)) as [inner |];
      [| discriminate].
    injection Htext as <-. split; [intros _; apply Hfree | congruence].
  - destruct (contains char_eqb fence content) eqn:Hf.
    + destruct (split_item1 char_eqb content fence) as [inner |];
        [| discriminate].
      injection Htext as <-. split; [intros _; apply Hfree | congruence].
    + injection Htext as <-. split; [discriminate | reflexivity].
Qed.

(** X26.  A reply that wraps its JSON in a fence tagged json, with no
    backtick before the fence or inside the body and no second tagged
    fence behind it, yields exactly the body with the white space at
    both its ends removed, whatever text surrounds the fences. *)
Theorem tagged_fence_yields_the_body
        (t : char) (fence' tag pre body post : list char) :
  ~ In t pre -> ~ In t body ->
  contains char_eqb ((t :: fence') ++ tag) (body ++ (t :: fence') ++ post)
    = false ->
  json_text char_eqb isspace (t :: fence') tag
            (pre ++ ((t :: fence') ++ tag) ++ body ++ (t :: fence') ++ post)
  = Some (strip isspace body).
Proof.
  intros Hpre Hbody Hone. unfold json_text.
  assert (Hj : contains char_eqb ((t :: fence') ++ tag)
                 (pre ++ ((t :: fence') ++ tag) ++ body ++ (t :: fence') ++ post)
               = true)
    by (apply (@contains_iff _ char_eqb char_eqb_eq); now exists pre, (body ++ (t :: fence') ++ post)).
  rewrite Hj. unfold split_item1.
  change ((t :: fence') ++ tag) with (t :: (fence' ++ tag)) at 2 3.
  rewrite (@str_partition_behind t (fence' ++ tag) pre _ Hpre).
  change (t :: (fence' ++ tag)) with ((t :: fence') ++ tag).
  rewrite (@split_item0_of_free _ _ Hone).
  unfold split_item0 at 1.
  rewrite (@str_partition_behind t fence' body post Hbody). reflexivity.
Qed.

(** X27.  The same for a fence without the tag, in a reply that has no
    tagged fence anywhere. *)
Theorem plain_fence_yields_the_body
        (t : char) (fence' tag pre body post : list char) :
  ~ In t pre -> ~ In t body ->
  contains char_eqb ((t :: fence') ++ tag)
           (pre ++ (t :: fence') ++ body ++ (t :: fence') ++ post) = false ->
  json_text char_eqb isspace (t :: fence') tag
            (pre ++ (t :: fence') ++ body ++ (t :: fence') ++ post)
  = Some (strip isspace body).
Proof.
  intros Hpre Hbody Hno. unfold json_text. rewrite Hno.
  assert (Hf : contains char_eqb (t :: fence')
                 (pre ++ (t :: fence') ++ body ++ (t :: fence') ++ post)
               = true)
    by (apply (@contains_iff _ char_eqb char_eqb_eq);
        now exists pre, (body ++ (t :: fence') ++ post)).
  rewrite Hf. unfold split_item1.
  rewrite (@str_partition_behind t fence' pre _ Hpre).
  unfold split_item0 at 2.
  rewrite (@str_partition_behind t fence' body post Hbody).
  rewrite (@split_item0_of_free _ _ (@free_of_first_char t fence' body Hbody)).
  reflexivity.
Qed.
End ReplyTextClaims.

Section StripFacts.
Context {char : Type} (char_eqb : char -> char -> bool)
        (isspace : char -> bool).

Lemma lstrip_head (s : list char) c r :
  lstrip isspace s = c :: r -> isspace c = false.
Proof.
  induction s as [| x s IH]; cbn; [discriminate |].
  destruct (isspace x) eqn:Hx; [exact IH |].
  intros H. injection H as <- _. exact Hx.
Qed.

Lemma strip_ends (s : list char) :
  (forall c r, strip isspace s = c :: r -> isspace c = false) /\
  (forall r c, strip isspace s = r ++ [c] -> isspace c = false).
Proof.
  split.
  - intros c r H. unfold strip in H.
    destruct (@rstrip_prefix _ isspace (lstrip isspace s)) as [tl Htl].
    rewrite H in Htl. cbn in Htl. eapply lstrip_head. exact Htl.
  - intros r c H. unfold strip, rstrip in H.
    apply (f_equal (@rev char)) in H.
    rewrite rev_involutive, rev_app_distr in H. cbn in H.
    eapply lstrip_head. exact H.
Qed.

(** X28.  The text handed to [json.loads] neither starts nor ends with
    a white-space character. *)
Theorem json_text_is_stripped (fence tag content text : list char) :
  json_text char_eqb isspace fence tag content = Some text ->
  (forall c r, text = c :: r -> isspace c = false) /\
  (forall r c, text = r ++ [c] -> isspace c = false).
Proof.
  unfold json_text. intros H.
  destruct (contains char_eqb (fence ++ tag) content).
  - destruct (split_item1 char_eqb content (fence ++ tag)); [| discriminate].
    injection H as <-. apply strip_ends.
  - destruct (contains char_eqb fence content).
    + destruct (split_item1 char_eqb content fence); [| discriminate].
      injection H as <-. apply strip_ends.
    + injection H as <-. apply strip_ends.
Qed.
End StripFacts.

(** Membership of a character in a literal text, refuted case by case. *)
Ltac absent_char :=
  let H := fresh "H" in
  cbv; intros H;
  repeat (destruct H as [H | H]; [discriminate H |]);
  exact H.

Lemma json_text_is_part_of_the_reply_witness :
  let content := Fixtures.chars "Here: ```json [1, 2] ``` Bye" in
  exists text,
    json_text Ascii.eqb Fixtures.ascii_isspace Fixtures.fence Fixtures.tag
              content = Some text /\
    exists l r, content = l ++ text ++ r.
Proof.
  intros content.
  apply (@json_text_is_part_of_the_reply ascii Ascii.eqb
           Fixtures.ascii_isspace Ascii.eqb_eq Fixtures.fence Fixtures.tag
           content).
Defined.

Lemma json_text_has_no_fence_witness :
  let content := Fixtures.chars "Here: ```json [1, 2] ``` Bye" in
  let text := Fixtures.chars "[1, 2]" in
  (contains Ascii.eqb Fixtures.fence content = true ->
   contains Ascii.eqb Fixtures.fence text = false) /\
  (contains Ascii.eqb Fixtures.fence content = false ->
   text = strip Fixtures.ascii_isspace content).
Proof.
  intros content text.
  apply (@json_text_has_no_fence ascii Ascii.eqb Fixtures.ascii_isspace
           Ascii.eqb_eq Fixtures.fence Fixtures.tag content text).
  - discriminate.
  - reflexivity.
Defined.

Lemma tagged_fence_yields_the_body_witness :
  let t := "`"%char in
  let fence' := [t; t] in
  let pre := Fixtures.chars "Here is the analysis: " in
  let body := Fixtures.chars " {fundamentals: []} " in
  let post := Fixtures.chars " Let me know." in
  json_text Ascii.eqb Fixtures.ascii_isspace (t :: fence') Fixtures.tag
            (pre ++ ((t :: fence') ++ Fixtures.tag) ++ body ++ (t :: fence') ++ post)
  = Some (strip Fixtures.ascii_isspace body).
Proof.
  intros t fence' pre body post.
  apply (@tagged_fence_yields_the_body ascii Ascii.eqb Fixtures.ascii_isspace
           Ascii.eqb_eq t fence' Fixtures.tag pre body post).
  - absent_char.
  - absent_char.
  - reflexivity.
Defined.

Lemma plain_fence_yields_the_body_witness :
  let t := "`"%char in
  let fence' := [t; t] in
  let pre := Fixtures.chars "Decision: " in
  let body := Fixtures.chars " {decisions: []} " in
  let post := Fixtures.chars "" in
  json_text Ascii.eqb Fixtures.ascii_isspace (t :: fence') Fixtures.tag
            (pre ++ (t :: fence') ++ body ++ (t :: fence') ++ post)
  = Some (strip Fixtures.ascii_isspace body).
Proof.
  intros t fence' pre body post.
  apply (@plain_fence_yields_the_body ascii Ascii.eqb Fixtures.ascii_isspace
           Ascii.eqb_eq t fence' Fixtures.tag pre body post).
  - absent_char.
  - absent_char.
  - reflexivity.
Defined.

Lemma json_text_is_stripped_witness :
  let text := Fixtures.chars "[1, 2]" in
  (forall c r, text = c :: r -> Fixtures.ascii_isspace c = false) /\
  (forall r c, text = r ++ [c] -> Fixtures.ascii_isspace c = false).
Proof.
  intros text.
  apply (@json_text_is_stripped ascii Ascii.eqb Fixtures.ascii_isspace
           Fixtures.fence Fixtures.tag
           (Fixtures.chars "  ``` [1, 2] ```") text).
  reflexivity.
Defined.
